(** * Fabric Store and Actor (types/store.js, types/actor.js)

    A shallow embedding of the path-addressed store and of the actor
    identity it is built on, followed by the properties stated for them.

    Conventions of the embedding.
    - JavaScript data is a tree ([value]); a property list is kept in the
      order the engine enumerates it (integer-like keys first, ascending,
      then the other keys in creation order).  Values handed to the store
      are taken as immutable trees: a caller that keeps mutating an object
      after storing it is not modelled.
    - An operation yields [Ok v] or [Throw e]; a rejected promise of an
      [async] method is a [Throw].  Mutations made before a throw persist,
      so every stateful operation returns the store next to its result.
    - A call of a member that nothing defines, and a use of a name that
      nothing binds, fail as they do in the engine.  store.js calls
      [this.sha256] (and [store.sha256]), but no class on the prototype
      chain of a store ([Store], [Actor], [EventEmitter]) declares a
      member of that name and no constructor assigns one: the call is
      a [TypeError].  It calls [this.log(...)] where [log] holds the
      array the [Actor] constructor assigned: a [TypeError] as well.
      It uses the names [State] and [store], which it neither declares
      nor requires: a [ReferenceError].
    - [OutsideModel] marks the few places where the outcome depends on the
      prototype chain (a path segment such as [toString] or [length]); it
      is never caught by the model of [try]/[catch].  A theorem that names
      the error thrown names a JavaScript exception; one that says some
      error is thrown says that the operation does not return.
    - Numbers are the integral ones ([Z]) that JSON prints in decimal
      digits: those of magnitude below 10^21 that a double holds
      exactly.  Strings are byte strings, so [length] and the default
      sort order agree with JavaScript on ASCII. *)

From Stdlib Require Import ZArith NArith Ascii String List Bool Lia Permutation.
From Stdlib Require Import Sorted OrderedTypeEx.
From stdpp Require Import base option list gmap strings pretty.

Local Open Scope string_scope.
Local Open Scope Z_scope.

(** ** Values *)

Inductive kind : Type := Plain | Array.

#[warnings="-register-all"]
Inductive value : Type :=
| VUndef
| VNull
| VBool (b : bool)
| VNum (n : Z)
| VStr (s : string)
| VObj (k : kind) (props : list (string * value)).

Abbreviation props := (list (string * value)).

Inductive error : Type :=
| TypeError (msg : string)
| ReferenceError (name : string)
| JsError (msg : string)
| OutsideModel (what : string).

Inductive result (A : Type) : Type :=
| Ok (a : A)
| Throw (e : error).
Arguments Ok {A} a.
Arguments Throw {A} e.

Definition rbind {A B} (r : result A) (f : A → result B) : result B :=
  match r with
  | Ok a => f a
  | Throw e => Throw e
  end.

Section value_rect.
Variable P : value → Prop.
Hypothesis Hundef : P VUndef.
Hypothesis Hnull : P VNull.
Hypothesis Hbool : ∀ b, P (VBool b).
Hypothesis Hnum : ∀ n, P (VNum n).
Hypothesis Hstr : ∀ s, P (VStr s).
Hypothesis Hobj : ∀ k ps, Forall (λ kv, P kv.2) ps → P (VObj k ps).

Fixpoint value_ind_props (v : value) : P v :=
  match v with
  | VUndef => Hundef
  | VNull => Hnull
  | VBool b => Hbool b
  | VNum n => Hnum n
  | VStr s => Hstr s
  | VObj k ps =>
      Hobj k ps
        ((fix go (l : props) : Forall (λ kv, P kv.2) l :=
            match l with
            | [] => @List.Forall_nil _ _
            | kv :: l' =>
                @List.Forall_cons _ _ kv l' (value_ind_props kv.2) (go l')
            end) ps)
  end.
End value_rect.

(** ** Property lists *)

Module Props.

Fixpoint assoc {A} (k : string) (ps : list (string * A)) : option A :=
  match ps with
  | [] => None
  | (k', v) :: ps' => if String.eqb k k' then Some v else assoc k ps'
  end.

Definition has {A} (k : string) (ps : list (string * A)) : bool :=
  match assoc k ps with Some _ => true | None => false end.

Definition is_digit (c : ascii) : bool :=
  let n := N_of_ascii c in ((48 <=? n) && (n <=? 57))%N.

Fixpoint all_digits (s : string) : bool :=
  match s with
  | EmptyString => true
  | String c s' => is_digit c && all_digits s'
  end.

Fixpoint digits_value (acc : N) (s : string) : N :=
  match s with
  | EmptyString => acc
  | String c s' => digits_value (acc * 10 + (N_of_ascii c - 48))%N s'
  end.

(** An array index is the canonical decimal spelling of a number below
    2^32 - 1. *)
Definition array_index (s : string) : option N :=
  let n := digits_value 0%N s in
  if all_digits s && String.eqb (pretty n) s && (n <? 4294967295)%N
  then Some n else None.

(** [length] of an array: one more than its largest index. *)
Fixpoint array_length {A} (ps : list (string * A)) : N :=
  match ps with
  | [] => 0%N
  | (k, _) :: ps' =>
      match array_index k with
      | Some i => N.max (i + 1) (array_length ps')
      | None => array_length ps'
      end
  end.

Fixpoint replace {A} (k : string) (v : A) (ps : list (string * A)) :=
  match ps with
  | [] => []
  | (k', v') :: ps' =>
      if String.eqb k k' then (k, v) :: ps' else (k', v') :: replace k v ps'
  end.

(** Does a new key [k] enumerate before the existing key [k']? *)
Definition before (k k' : string) : bool :=
  match array_index k, array_index k' with
  | Some i, Some j => (i <? j)%N
  | Some _, None => true
  | None, _ => false
  end.

Fixpoint insert_new {A} (k : string) (v : A) (ps : list (string * A)) :=
  match ps with
  | [] => [(k, v)]
  | (k', v') :: ps' =>
      if before k k' then (k, v) :: (k', v') :: ps'
      else (k', v') :: insert_new k v ps'
  end.

(** [obj[k] = v] on own properties. *)
Definition put {A} (k : string) (v : A) (ps : list (string * A)) :=
  if has k ps then replace k v ps else insert_new k v ps.

Definition keys {A} (ps : list (string * A)) : list string := map fst ps.

End Props.

(** Names that resolve through the prototype chain of a plain object or
    of an array; what [in] and a property read do for them is not decided
    by the own properties. *)
Definition object_members : list string :=
  ["__defineGetter__"; "__defineSetter__"; "__lookupGetter__";
   "__lookupSetter__"; "__proto__"; "constructor"; "hasOwnProperty";
   "isPrototypeOf"; "propertyIsEnumerable"; "toLocaleString"; "toString";
   "valueOf"].

Definition array_members : list string :=
  ["length"; "at"; "concat"; "copyWithin"; "entries"; "every"; "fill";
   "filter"; "find"; "findIndex"; "findLast"; "findLastIndex"; "flat";
   "flatMap"; "forEach"; "includes"; "indexOf"; "join"; "keys";
   "lastIndexOf"; "map"; "pop"; "push"; "reduce"; "reduceRight";
   "reverse"; "shift"; "slice"; "some"; "sort"; "splice"; "toReversed";
   "toSorted"; "toSpliced"; "unshift"; "values"; "with"].

Definition mem (s : string) (l : list string) : bool :=
  existsb (String.eqb s) l.

Definition inherited (k : kind) (tok : string) : bool :=
  mem tok object_members ||
  match k with Array => mem tok array_members | Plain => false end.

(** ** JSON text and buffers (the engine's JSON.stringify and Buffer) *)

Module Json.

Definition dquote : string := String (ascii_of_N 34) EmptyString.

Definition hex_char (n : N) : ascii :=
  if (n <? 10)%N then ascii_of_N (48 + n) else ascii_of_N (87 + n).

Definition hex_byte (c : ascii) : string :=
  let n := N_of_ascii c in
  String (hex_char (n / 16)) (String (hex_char (n mod 16)) EmptyString).

(** QuoteJSONString, one character. *)
Definition quote_char (c : ascii) : string :=
  let n := N_of_ascii c in
  if (n =? 8)%N then "\b"
  else if (n =? 9)%N then "\t"
  else if (n =? 10)%N then "\n"
  else if (n =? 12)%N then "\f"
  else if (n =? 13)%N then "\r"
  else if (n =? 34)%N then "\" ++ dquote
  else if (n =? 92)%N then "\\"
  else if (n <? 32)%N then "\u00" ++ hex_byte c
  else String c EmptyString.

Fixpoint quote_body (s : string) : string :=
  match s with
  | EmptyString => EmptyString
  | String c s' => quote_char c ++ quote_body s'
  end.

Definition quote (s : string) : string := dquote ++ quote_body s ++ dquote.

Fixpoint join (sep : string) (l : list string) : string :=
  match l with
  | [] => ""
  | [x] => x
  | x :: l' => x ++ sep ++ join sep l'
  end.

Definition newline : string := String (ascii_of_N 10) EmptyString.

Definition wrap (gap stepback indent open close : string)
    (partial : list string) : string :=
  match partial with
  | [] => open ++ close
  | _ =>
      if String.eqb gap "" then open ++ join "," partial ++ close
      else open ++ newline ++ indent
           ++ join ("," ++ newline ++ indent) partial
           ++ newline ++ stepback ++ close
  end.

Definition member (gap : string) (kv : string * option string)
    : option string :=
  match kv.2 with
  | Some str =>
      Some (quote kv.1 ++ ":" ++ (if String.eqb gap "" then "" else " ")
            ++ str)
  | None => None
  end.

Definition element (sps : list (string * option string)) (i : nat)
    : string :=
  match Props.assoc (pretty (N.of_nat i)) sps with
  | Some (Some str) => str
  | _ => "null"
  end.

(** SerializeJSONProperty: [None] is the engine's [undefined].  A number
    prints its decimal digits, as the engine prints the integral
    numbers of the conventions. *)
Fixpoint ser (gap indent : string) (v : value) : option string :=
  match v with
  | VUndef => None
  | VNull => Some "null"
  | VBool b => Some (if b then "true" else "false")
  | VNum n => Some (pretty n)
  | VStr s => Some (quote s)
  | VObj k ps =>
      let inner := indent ++ gap in
      let sps :=
        (fix go (l : props) : list (string * option string) :=
           match l with
           | [] => []
           | kv :: l' => (kv.1, ser gap inner kv.2) :: go l'
           end) ps in
      match k with
      | Plain =>
          Some (wrap gap indent inner "{" "}" (omap (member gap) sps))
      | Array =>
          Some (wrap gap indent inner "[" "]"
                  (map (element sps)
                     (seq 0 (N.to_nat (Props.array_length ps)))))
      end
  end.

(** [JSON.stringify(v)] and [JSON.stringify(v, null, '  ')]. *)
Definition stringify (v : value) : option string := ser "" "" v.
Definition stringify_pretty (v : value) : option string := ser "  " "" v.

(** [Buffer.from(s, 'utf8').toString('hex')]. *)
Fixpoint to_hex (s : string) : string :=
  match s with
  | EmptyString => EmptyString
  | String c s' => hex_byte c ++ to_hex s'
  end.

Definition hex_value (c : ascii) : option N :=
  let n := N_of_ascii c in
  if ((48 <=? n) && (n <=? 57))%N then Some (n - 48)%N
  else if ((97 <=? n) && (n <=? 102))%N then Some (n - 87)%N
  else if ((65 <=? n) && (n <=? 70))%N then Some (n - 55)%N
  else None.

(** [Buffer.from(s, 'hex')]: decoding stops at the first pair that is
    not two hexadecimal digits. *)
Fixpoint from_hex (s : string) : string :=
  match s with
  | String a (String b s') =>
      match hex_value a, hex_value b with
      | Some x, Some y => String (ascii_of_N (16 * x + y)) (from_hex s')
      | _, _ => EmptyString
      end
  | _ => EmptyString
  end.

End Json.

(** ** Engine operations on data values *)

Module Js.

(** Own enumerable properties of a source of [Object.assign]: those of
    an object or array, the characters of a string, none otherwise. *)
Fixpoint chars (i : N) (s : string) : props :=
  match s with
  | EmptyString => []
  | String c s' => (pretty i, VStr (String c EmptyString)) :: chars (i + 1) s'
  end.

Definition own_enumerable (v : value) : props :=
  match v with
  | VObj _ ps => ps
  | VStr s => chars 0 s
  | _ => []
  end.

Definition assign1 (target source : props) : props :=
  fold_left (λ acc kv, Props.put kv.1 kv.2 acc) source target.

(** [Object.assign(target, ...sources)] for a plain target. *)
Definition Object_assign (target : props) (sources : list value) : props :=
  fold_left (λ acc s, assign1 acc (own_enumerable s)) sources target.

(** ToBoolean. *)
Definition truthy (v : value) : bool :=
  match v with
  | VUndef | VNull => false
  | VBool b => b
  | VNum n => negb (n =? 0)
  | VStr s => negb (String.eqb s "")
  | VObj _ _ => true
  end.

(** [a || b]. *)
Definition or_else (a b : value) : value := if truthy a then a else b.

(** [v.name] for the member names the sources read ([state], [name],
    [length], [addresses]); none of them is found on a prototype. *)
Definition prop (v : value) (name : string) : result value :=
  match v with
  | VUndef | VNull =>
      Throw (TypeError ("Cannot read properties of undefined or null (reading '"
                        ++ name ++ "')"))
  | VStr s =>
      Ok (if String.eqb name "length" then VNum (Z.of_nat (String.length s))
          else VUndef)
  | VObj Array ps =>
      if String.eqb name "length" then Ok (VNum (Z.of_N (Props.array_length ps)))
      else Ok (default VUndef (Props.assoc name ps))
  | VObj Plain ps => Ok (default VUndef (Props.assoc name ps))
  | _ => Ok VUndef
  end.

(** [v === s] for a string literal [s]. *)
Definition is_string (v : value) (s : string) : bool :=
  match v with VStr x => String.eqb x s | _ => false end.

(** [v.constructor.name]: an own [constructor] property shadows the
    inherited one. *)
Definition constructor_name (v : value) : result value :=
  match v with
  | VUndef | VNull =>
      Throw (TypeError "Cannot read properties of undefined or null (reading 'constructor')")
  | VBool _ => Ok (VStr "Boolean")
  | VNum _ => Ok (VStr "Number")
  | VStr _ => Ok (VStr "String")
  | VObj k ps =>
      match Props.assoc "constructor" ps with
      | Some c => prop c "name"
      | None => Ok (VStr (match k with Plain => "Object" | Array => "Array" end))
      end
  end.

(** [Buffer.from(s, 'utf8')]; [None] is [undefined]. *)
Definition Buffer_from (s : option string) : result string :=
  match s with
  | Some s => Ok s
  | None => Throw (TypeError "The first argument must be of type string")
  end.

(** [obj[tok] = v] in strict code. *)
Definition assign (obj : value) (tok : string) (v : value) : result value :=
  match obj with
  | VObj k ps =>
      if inherited k tok then Throw (OutsideModel tok)
      else Ok (VObj k (Props.put tok v ps))
  | VUndef | VNull => Throw (TypeError "Cannot set properties of undefined or null")
  | _ => Throw (TypeError "Cannot create property on a primitive value")
  end.

End Js.

(** ** JSON pointers (the json-pointer package the store requires) *)

Module Pointer.

(** [s.replace(/ab/g, rep)] for a two-character pattern. *)
Fixpoint replace2 (a b : ascii) (rep : string) (s : string) : string :=
  match s with
  | EmptyString => EmptyString
  | String c s' =>
      match s' with
      | String d s'' =>
          if Ascii.eqb c a && Ascii.eqb d b then rep ++ replace2 a b rep s''
          else String c (replace2 a b rep s')
      | EmptyString => String c EmptyString
      end
  end.

(** [s.replace(/a/g, rep)] for a one-character pattern. *)
Fixpoint replace1 (a : ascii) (rep : string) (s : string) : string :=
  match s with
  | EmptyString => EmptyString
  | String c s' =>
      if Ascii.eqb c a then rep ++ replace1 a rep s'
      else String c (replace1 a rep s')
  end.

Definition escape (s : string) : string :=
  replace1 "/" "~1" (replace1 "~" "~0" s).

Definition unescape (s : string) : string :=
  replace2 "~" "0" "~" (replace2 "~" "1" "/" s).

(** [s.split('/')]. *)
Fixpoint split (s : string) : list string :=
  match s with
  | EmptyString => [EmptyString]
  | String c s' =>
      if Ascii.eqb c "/" then EmptyString :: split s'
      else match split s' with
           | h :: t => String c h :: t
           | [] => [String c EmptyString]
           end
  end.

Definition parse (pointer : string) : result (list string) :=
  match pointer with
  | EmptyString => Ok []
  | String c rest =>
      if Ascii.eqb c "/" then Ok (map unescape (split rest))
      else Throw (JsError ("Invalid JSON pointer: " ++ pointer))
  end.

(** [typeof obj == 'object' && tok in obj], then [obj[tok]]. *)
Definition step (obj : value) (tok : string) : result value :=
  match obj with
  | VObj k ps =>
      if inherited k tok then Throw (OutsideModel tok)
      else match Props.assoc tok ps with
           | Some v => Ok v
           | None => Throw (JsError ("Invalid reference token: " ++ tok))
           end
  | VNull => Throw (TypeError "Cannot use 'in' operator to search in null")
  | _ => Throw (JsError ("Invalid reference token: " ++ tok))
  end.

Fixpoint get_tokens (obj : value) (toks : list string) : result value :=
  match toks with
  | [] => Ok obj
  | tok :: rest => rbind (step obj tok) (λ v, get_tokens v rest)
  end.

Definition get (obj : value) (pointer : string) : result value :=
  rbind (parse pointer) (get_tokens obj).

(** [nextTok.match(/^(\d+|-)$/)]. *)
Definition index_like (tok : string) : bool :=
  String.eqb tok "-" ||
  (negb (String.eqb tok "") && Props.all_digits tok).

Definition guarded (tok : string) : bool :=
  mem tok ["__proto__"; "constructor"; "prototype"].

(** [if (tok === '-' && Array.isArray(obj)) tok = obj.length]. *)
Definition resolve (obj : value) (tok : string) : string :=
  match obj with
  | VObj Array ps =>
      if String.eqb tok "-" then pretty (Props.array_length ps) else tok
  | _ => tok
  end.

(** The loop of [set] over the tokens before the last, and the final
    assignment.  A segment of the set [guarded] is skipped by some
    releases of the package and followed by others. *)
Fixpoint set_tokens (obj : value) (toks : list string) (v : value)
    : result value :=
  match toks with
  | [] => Throw (JsError "Can not set the root object")
  | [last] => Js.assign obj (resolve obj last) v
  | tok :: (next :: _) as rest =>
      if guarded tok then Throw (OutsideModel tok)
      else
        let tok := resolve obj tok in
        match obj with
        | VObj k ps =>
            if inherited k tok then Throw (OutsideModel tok)
            else
              let child :=
                match Props.assoc tok ps with
                | Some c => c
                | None => if index_like next then VObj Array []
                          else VObj Plain []
                end in
              rbind (set_tokens child rest v)
                (λ child', Ok (VObj k (Props.put tok child' ps)))
        | _ => Throw (TypeError "Cannot use 'in' operator on a primitive value")
        end
  end.

Definition set (obj : value) (pointer : string) (v : value) : result value :=
  rbind (parse pointer) (λ toks, set_tokens obj toks v).

End Pointer.

(** ** Actor (types/actor.js) *)

Module Actor.

(** What the methods of [Actor] read from [this]: [_state.content] and
    [signature].  [Store] extends [Actor] and replaces [_state]. *)
Class ActorLike (T : Type) := {
  content_of : T → value;
  signature_of : T → value
}.

Record t := {
  log : list value;
  signature : value;
  value_ : value;
  state_type : string;
  state_data : value;
  state_status : string;
  state_content : value
}.

#[global] Instance actor_like : ActorLike t :=
  {| content_of := state_content; signature_of := signature |}.

(** [_readObject(input)] on a data value.  A [Buffer] takes a branch of
    its own, which [ActorMethods._readObject] adds. *)
Definition _readObject (input : value) : value :=
  let input := match input with VUndef => VObj Plain [] | _ => input end in
  match input with
  | VStr s =>
      VObj Plain (Js.Object_assign []
        [VObj Plain [("type", VStr "String"); ("content", VStr s)]])
  | _ => VObj Plain (Js.Object_assign [] [input])
  end.

(** [new Actor(actor)] for a data value that the constructor of
    [EventEmitter] accepts; [ActorMethods.new] is the constructor on
    every argument, with that check and the [Buffer]. *)
Definition new (actor : value) : t :=
  let v := _readObject actor in
  {| log := [];
     signature := VNull;
     value_ := v;
     state_type := "Actor";
     state_data := v;
     state_status := "PAUSED";
     state_content := Js.or_else v (VObj Plain []) |}.

Section Methods.
(** [Hash256.digest] (types/hash256.js) and [_sortKeys]
    (functions/_sortKeys.js) are required by actor.js; neither file
    is among the sources, so both are taken as given. *)
Variable Hash256_digest : string → string.
Variable _sortKeys : value → value.
Context {T : Type} `{ActorLike T}.

Definition state (this : T) : value := content_of this.

Definition toObject (this : T) : value := _sortKeys (state this).

Definition preimage (this : T) : result string :=
  let input := VObj Plain [("@type", VStr "FabricActorState");
                           ("@data", toObject this)] in
  rbind (Js.Buffer_from (Json.stringify_pretty input))
    (λ buffer, Ok (Hash256_digest buffer)).

Definition id (this : T) : result string :=
  rbind (preimage this)
    (λ p, Ok (Hash256_digest (Json.from_hex p))).

(** [JSON.stringify] of a data tree does not throw, so the [catch]
    branch of [serialize] is not entered. *)
Definition serialize (this : T) : option string :=
  Json.stringify_pretty (toObject this).

Definition sign (this : T) : T * result T :=
  (this, Throw (JsError
     "Unimplemented on this branch.  Use @fabric/core/types/signer instead.")).

End Methods.

End Actor.

(** ** More of Actor (types/actor.js)

    The constructor and [_readObject] on every argument, a [Buffer]
    included, the static [fromAny], the views [type], [_getState],
    [toBuffer] and [toString], and the life-cycle methods [commit],
    [pause] and [unpause], as [Actor] itself defines them.  A subclass
    that overrides [commit] (as [Store] does) is not an instance of
    what follows. *)

Module ActorMethods.

(** What a caller hands to the constructor or to [fromAny]: a data
    value, or a [Buffer], given by its bytes. *)
Inductive argument : Type :=
| Data (v : value)
| Buffer (bytes : string).

(** [actor.captureRejections], as the constructor of [EventEmitter]
    reads it from the argument of [super(actor)]: an own property of an
    object or array that has one.  No data value inherits a member of
    that name, and a string, a number, a boolean and a [Buffer] have
    none. *)
Definition captureRejections (actor : argument) : value :=
  match actor with
  | Data (VObj _ ps) => default VUndef (Props.assoc "captureRejections" ps)
  | _ => VUndef
  end.

Definition is_boolean (v : value) : bool :=
  match v with VBool _ => true | _ => false end.

(** [super(actor)]: the constructor of [EventEmitter] (the engine's
    events module) throws a [TypeError] when [captureRejections] is
    truthy and not a boolean; the text of its message is abridged
    here. *)
Definition EventEmitter (actor : argument) : result unit :=
  let c := captureRejections actor in
  if Js.truthy c && negb (is_boolean c)
  then Throw (TypeError
         "The options.captureRejections property must be of type boolean")
  else Ok tt.

(** [_readObject(input)], with the branch of a [Buffer]. *)
Definition _readObject (input : argument) : value :=
  match input with
  | Data v => Actor._readObject v
  | Buffer bytes =>
      VObj Plain (Js.Object_assign []
        [VObj Plain [("type", VStr "Buffer");
                     ("content", VStr (Json.to_hex bytes));
                     ("encoding", VStr "hex")]])
  end.

(** [new Actor(actor)] on any argument; where the argument is a data
    value that [EventEmitter] accepts, this is [Actor.new]. *)
Definition new (actor : argument) : result Actor.t :=
  rbind (EventEmitter actor) (λ _,
    let v := _readObject actor in
    Ok {| Actor.log := [];
          Actor.signature := VNull;
          Actor.value_ := v;
          Actor.state_type := "Actor";
          Actor.state_data := v;
          Actor.state_status := "PAUSED";
          Actor.state_content := Js.or_else v (VObj Plain []) |}).


Definition type (this : Actor.t) : string := Actor.state_type this.


(** An actor while it runs: the fields its constructor sets ([self]),
    the instance property [status] that [pause] and [unpause] assign
    ([undefined] until then; it is not [_state.status]), and the events
    handed to [emit], oldest first. *)
Record instance := {
  self : Actor.t;
  status : value;
  emitted : list (string * Actor.t)
}.


Definition with_log (l : list value) (a : Actor.t) : Actor.t :=
  {| Actor.log := l;
     Actor.signature := Actor.signature a;
     Actor.value_ := Actor.value_ a;
     Actor.state_type := Actor.state_type a;
     Actor.state_data := Actor.state_data a;
     Actor.state_status := Actor.state_status a;
     Actor.state_content := Actor.state_content a |}.


(** [...s] for a string: its characters, one value each (strings are
    byte strings here, which is the same thing on the ASCII text of a
    hexadecimal digest). *)
Definition spread (s : string) : list value :=
  map (λ c, VStr (String c EmptyString)) (list_ascii_of_string s).

Section Methods.
Variable Hash256_digest : string → string.
Variable _sortKeys : value → value.

Definition toBuffer (this : Actor.t) : result string :=
  Js.Buffer_from (Actor.serialize _sortKeys this).

(** [toString(format = 'json')]; [None] is [undefined]. *)
Definition toString (format : value) (this : Actor.t)
    : result (option string) :=
  let format := match format with VUndef => VStr "json" | _ => format end in
  if Js.is_string format "hex" then
    rbind (Js.Buffer_from (Actor.serialize _sortKeys this))
      (λ buffer, Ok (Some (Json.to_hex buffer)))
  else Ok (Actor.serialize _sortKeys this).

(** [commit()].  The content it hands to the constructor is the state
    a constructor built, so [EventEmitter] accepts it as it accepted
    the argument of that constructor. *)
Definition commit (this : instance) : instance * result string :=
  let state := Actor.new (Actor.state_content (self this)) in
  match Actor.id Hash256_digest _sortKeys state with
  | Ok id =>
      ({| self := with_log (Actor.log (self this) ++ spread id) (self this);
          status := status this;
          emitted := emitted this ++ [("commit", state)] |},
       Ok id)
  | Throw e => (this, Throw e)
  end.



End Methods.

End ActorMethods.

(** ** Store (types/store.js) *)

Module Store.

Record DataInfo := {
  info_hash : value;
  info_size : value;
  info_type : value
}.

Record RouteInfo := {
  route_path : string;
  route_pointer : string;
  route_index : string
}.

Record KeyInfo := { key_path : string; key_address : string }.

(** An emitted event: its name and arguments. *)
Definition event : Type := string * list value.

(** The fields of a [Store] instance the operations below touch.
    [log] and [signature] are set by the [Actor] constructor;
    [content], [actors], [documents], [metadata] and [indices] are the
    members of [_state]; [entity_data] is [this['@entity']['@data']];
    [emitted] records the calls of [emit], oldest first. *)
Record t := {
  log : value;
  signature : value;
  verbosity : Z;
  method : value;
  entity_data : value;
  keys : gmap string KeyInfo;
  actors : gmap string Actor.t;
  documents : gmap string value;
  metadata : gmap string DataInfo;
  indices : gmap string string;
  content : value;
  emitted : list event
}.

#[global] Instance actor_like : Actor.ActorLike t :=
  {| Actor.content_of := content; Actor.signature_of := signature |}.

(** [new Store(settings)], with [verbosity] the value of
    [settings.verbosity] after the defaults are merged. *)
Definition new (verbosity : Z) : t :=
  {| log := VObj Array [];
     signature := VNull;
     verbosity := verbosity;
     method := VUndef;
     entity_data := VObj Plain [];
     keys := ∅;
     actors := ∅;
     documents := ∅;
     metadata := ∅;
     indices := ∅;
     content := VObj Plain [];
     emitted := [] |}.

(** The store built with the default settings ([verbosity: 2]). *)
Definition fresh : t := new 2.

(** [if (path.substring(0, 1) !== '/') path = '/' + path], the first
    statement of [getRouteInfo]. *)
Definition normalize (path : string) : string :=
  if negb (String.eqb (substring 0 1 path) "/") then "/" ++ path else path.

(** *** Stateful computations that may throw *)

Definition M (A : Type) : Type := t → t * result A.

Definition ret {A} (a : A) : M A := λ st, (st, Ok a).
Definition throw {A} (e : error) : M A := λ st, (st, Throw e).
Definition lift {A} (r : result A) : M A := λ st, (st, r).
Definition bind {A B} (m : M A) (f : A → M B) : M B :=
  λ st, match m st with
        | (st', Ok a) => f a st'
        | (st', Throw e) => (st', Throw e)
        end.

(** The store as it is now. *)
Definition this : M t := λ st, (st, Ok st).
Definition modify (f : t → t) : M unit := λ st, (f st, Ok tt).

(** [try { m } catch (E) { h E }]. *)
Definition catch {A} (m : M A) (h : error → M A) : M A :=
  λ st, match m st with
        | (st', Throw (OutsideModel w)) => (st', Throw (OutsideModel w))
        | (st', Throw e) => h e st'
        | r => r
        end.

(** A call of an [async] method whose promise is dropped: the body
    runs, a rejection goes unobserved. *)
Definition detached {A} (m : M A) : M unit :=
  catch (bind m (λ _, ret tt)) (λ _, ret tt).

(** Calling a member that holds data (or nothing) instead of a
    function. *)
Definition invoke (member : string) (callee : value) : M unit :=
  throw (TypeError (member ++ " is not a function")).

(** [this.sha256(x)], and [store.sha256(x)] in the listener of [trust];
    [receiver] is the name the call site uses.  Neither [Store] nor
    [Actor] nor [EventEmitter] declares a member [sha256] and no
    constructor assigns one, so the callee is [undefined] and the call
    throws instead of returning a digest. *)
Definition sha256 (receiver : string) (x : value) : M string :=
  throw (TypeError (receiver ++ ".sha256 is not a function")).

(** [new State(x)].  store.js neither declares nor requires the name
    [State] (it requires level, crypto, json-pointer, ./actor,
    ./collection, ./entity and ./stack), so evaluating it throws; the
    statements that follow it in a function body are not reached. *)
Definition new_State {A} (x : value) : M A :=
  throw (ReferenceError "State").

Declare Scope store_scope.
Delimit Scope store_scope with store.
Notation "x <- m ;; k" := (bind m (λ x, k))
  (at level 100, m at next level, right associativity) : store_scope.
Notation "m ;;; k" := (bind m (λ _, k))
  (at level 100, right associativity) : store_scope.
Local Open Scope store_scope.

Definition emit (name : string) (args : list value) : M unit :=
  modify (λ st,
    {| log := log st; signature := signature st; verbosity := verbosity st;
       method := method st; entity_data := entity_data st; keys := keys st;
       actors := actors st; documents := documents st;
       metadata := metadata st; indices := indices st;
       content := content st;
       emitted := emitted st ++ [(name, args)] |}).

Definition set_content (c : value) (st : t) : t :=
  {| log := log st; signature := signature st; verbosity := verbosity st;
     method := method st; entity_data := entity_data st; keys := keys st;
     actors := actors st; documents := documents st;
     metadata := metadata st; indices := indices st;
     content := c;
     emitted := emitted st |}.

Definition set_entity_data (d : value) (st : t) : t :=
  {| log := log st; signature := signature st; verbosity := verbosity st;
     method := method st; entity_data := d; keys := keys st;
     actors := actors st; documents := documents st;
     metadata := metadata st; indices := indices st;
     content := content st;
     emitted := emitted st |}.

(** The four flat index writes of [set]. *)
Definition set_indices (aid : string) (actor : Actor.t) (hash : string)
    (v : value) (route : RouteInfo) (info : DataInfo) (st : t) : t :=
  {| log := log st; signature := signature st; verbosity := verbosity st;
     method := method st; entity_data := entity_data st; keys := keys st;
     actors := <[aid := actor]> (actors st);
     documents := <[hash := v]> (documents st);
     metadata := <[route_index route := info]> (metadata st);
     indices := <[route_index route := route_pointer route]> (indices st);
     content := content st;
     emitted := emitted st |}.

(** [this['@method'] = m]. *)
Definition set_method (m : value) (st : t) : t :=
  {| log := log st; signature := signature st; verbosity := verbosity st;
     method := m; entity_data := entity_data st; keys := keys st;
     actors := actors st; documents := documents st;
     metadata := metadata st; indices := indices st;
     content := content st;
     emitted := emitted st |}.

Definition set_keys (ks : gmap string KeyInfo) (st : t) : t :=
  {| log := log st; signature := signature st; verbosity := verbosity st;
     method := method st; entity_data := entity_data st; keys := ks;
     actors := actors st; documents := documents st;
     metadata := metadata st; indices := indices st;
     content := content st;
     emitted := emitted st |}.

(** [getDataInfo(value)].  The branch of a string asks for the digest
    of the value. *)
Definition getDataInfo (v : value) : M DataInfo :=
  name <- lift (Js.constructor_name v) ;;
  if Js.is_string name "String" then
    size <- lift (Js.prop v "length") ;;
    hash <- sha256 "this" v ;;
    ret {| info_hash := VStr hash; info_size := size;
           info_type := VStr "JSONString" |}
  else ret {| info_hash := VNull; info_size := VNull;
              info_type := VStr "Unhandled" |}.

(** [getRouteInfo(path)]: the path with a leading slash, its escaped
    form, and the digest of that, which is asked of [this.sha256]. *)
Definition getRouteInfo (path : string) : M RouteInfo :=
  let path := normalize path in
  let id := Pointer.escape path in
  router <- sha256 "this" (VStr id) ;;
  ret {| route_path := path; route_pointer := id; route_index := router |}.

(** No data value is an instance of [String], so the [switch] is
    always entered; it reads [value.constructor.name]. *)
Definition encodeValue (v : value) : result string :=
  rbind (Js.constructor_name v) (λ _,
    rbind (Js.Buffer_from (Json.stringify v)) (λ buffer,
      Ok (Json.to_hex buffer))).

(** [get(key)].  Its first statement awaits [getRouteInfo], so the
    read of the content tree and of the metadata behind it are written
    down as the code has them but are not reached. *)
Definition get (key : string) : M value :=
  route <- getRouteInfo key ;;
  st <- this ;;
  result <- lift (Pointer.get (content st) (route_path route)) ;;
  type <- match metadata st !! route_index route with
          | Some info => ret (info_type info)
          | None => throw (TypeError
                      "Cannot read properties of undefined (reading 'type')")
          end ;;
  ret result.

(** [_GET(key)]: [get] with its rejection turned into [null]. *)
Definition _GET (key : string) : M value :=
  st <- this ;;
  (if 5 <=? verbosity st then invoke "this.log" (log st) else ret tt) ;;;
  catch (get key)
    (λ E, (if 5 <=? verbosity st then invoke "this.warn" VUndef
           else ret tt) ;;;
          ret VNull).

(** [new State(data)] stands between the read of the stack and every
    write of [_PUSH]. *)
Definition _PUSH (key : string) (data : value) : M value :=
  let id := Pointer.escape key in
  let path := "/stacks/" ++ id in
  list <- _GET path ;;
  let list := if Js.truthy list then list else VObj Array [] in
  new_State data.

(** [_POST(key, value)]: ['@method'] is assigned, then the digest of
    the escaped key is asked for; the registration of the address, the
    write to ['@data'].addresses and [new State(value)] follow. *)
Definition _POST (key : string) (v : value) : M value :=
  modify (set_method (VStr "_POST")) ;;;
  let path := Pointer.escape key in
  router <- sha256 "this" (VStr path) ;;
  let address := "/collections/" ++ router in
  modify (λ st,
    set_keys
      (match keys st !! address with
       | Some _ => keys st
       | None => <[address := {| key_path := key; key_address := address |}]>
                   (keys st)
       end) st) ;;;
  st <- this ;;
  addresses <- lift (Js.prop (entity_data st) "addresses") ;;
  addresses' <- lift (Js.assign addresses router (VStr address)) ;;
  data' <- lift (Js.assign (entity_data st) "addresses" addresses') ;;
  modify (set_entity_data data') ;;;
  new_State v.

(** The listener [trust] registers for the [put] events of a source;
    [name] is the path computed when [trust] was called.  From
    verbosity 5 on it first prints [value.constructor.name]; then it
    asks [store.sha256] for the digest of the escaped key, and builds a
    [State], before the first of its writes to ['@data']. *)
Definition on_put (name : string) (key : string) (v : value) : M unit :=
  st <- this ;;
  (if 5 <=? verbosity st then lift (Js.constructor_name v) ;;; ret tt
   else ret tt) ;;;
  let id := Pointer.escape key in
  router <- sha256 "store" (VStr id) ;;
  new_State v.

Section Operations.
(** Taken as given, because the sources do not contain them:
    - [Hash256.digest] (types/hash256.js) and [_sortKeys]
      (functions/_sortKeys.js), required by actor.js;
    - the [Entity] class (types/entity.js, required by store.js), seen
      through its constructor and the members [id] and [data]. *)
Variable Hash256_digest : string → string.
Variable _sortKeys : value → value.
Variable Entity : Type.
Variable new_Entity : value → Entity.
Variable Entity_id : Entity → string.
Variable Entity_data : Entity → value.

Definition actor_id {T} `{Actor.ActorLike T} (this : T) : result string :=
  Actor.id Hash256_digest _sortKeys this.

Definition commit : M Entity :=
  st <- this ;;
  data <- lift (Js.prop (Actor.state st) "state") ;;
  let entity := new_Entity data in
  emit "commit" [VStr (Entity_id entity); Entity_data entity] ;;;
  ret entity.

(** [set(key, value)].  Its first statement awaits [getRouteInfo], so
    the statements behind it are written down as the code has them
    (over values as trees, see the conventions) but are not reached.
    The argument of [new Actor] is an object literal without a
    [captureRejections] member, which the constructor accepts. *)
Definition set (key : string) (v : value) : M value :=
  route <- getRouteInfo key ;;
  info <- getDataInfo v ;;
  data <- lift (encodeValue v) ;;
  hash <- sha256 "this" v ;;
  let actor := Actor.new (VObj Plain [("type", VStr "FabricDocument");
                                      ("content", VStr data);
                                      ("encoding", VStr "json");
                                      ("original", v)]) in
  aid <- lift (actor_id actor) ;;
  modify (set_indices aid actor hash v route info) ;;;
  st <- this ;;
  c <- lift (Pointer.set (content st) (route_path route) v) ;;
  modify (set_content c) ;;;
  detached commit ;;;
  get key.

Definition _SET (key : string) (v : value) : M value := set key v.

Definition _PUT (key : string) (v : value) : M value := set key v.

Definition _DELETE (key : string) : M value :=
  _PUT key VNull ;;; ret VNull.

(** Lines 153-166 of [_PATCH]: what follows its first statement. *)
Definition _PATCH_merge (key : string) (patch : value) : M value :=
  current <- _GET key ;;
  let result :=
    VObj Plain (Js.Object_assign []
                  [Js.or_else current (VObj Plain []); patch]) in
  catch (_PUT key result ;;; ret tt) (λ E, ret tt) ;;;
  ret result.

Definition _PATCH (key : string) (patch : value) : M value :=
  st <- this ;;
  invoke "this.log" (log st) ;;;
  _PATCH_merge key patch.

(** [_REGISTER(obj)].  [store.log(...)] names a variable that is bound
    nowhere; the statements after it ([vector], [result] are unbound
    as well) are never reached. *)
Definition _REGISTER (obj : ActorMethods.argument) : M value :=
  actor <- lift (ActorMethods.new obj) ;;
  aid <- lift (actor_id actor) ;;
  existing <- _GET ("/entities/" ++ aid) ;;
  throw (ReferenceError "store").

(** [trust(source)]: computes [name] from the store's own id and hands
    the listener to the source; the store itself is returned
    unchanged. *)
Definition trust (st : t) : result (string → value → M unit) :=
  rbind (actor_id st) (λ sid, Ok (on_put ("/sources/" ++ sid))).

Definition sign (st : t) : t * result t := Actor.sign st.

(** The states a store goes through: built by the constructor, then
    changed by its operations, whether they return or throw, and by the
    listeners that earlier calls of [trust] handed out. *)
Inductive reachable : t → Prop :=
| reach_new (verbosity : Z) : reachable (new verbosity)
| reach_set st key v : reachable st → reachable (set key v st).1
| reach_commit st : reachable st → reachable (commit st).1
| reach_delete st key : reachable st → reachable (_DELETE key st).1
| reach_patch st key patch : reachable st → reachable (_PATCH key patch st).1
| reach_post st key v : reachable st → reachable (_POST key v st).1
| reach_push st key data : reachable st → reachable (_PUSH key data st).1
| reach_put st0 st handler key v :
    reachable st0 → trust st0 = Ok handler → reachable st →
    reachable (handler key v st).1.

End Operations.

End Store.

(** ** Canonical form *)

Module Canonical.

Fixpoint insert_sorted (kv : string * value) (l : props) : props :=
  match l with
  | [] => [kv]
  | kv' :: l' =>
      if String.leb kv.1 kv'.1 then kv :: l else kv' :: insert_sorted kv l'
  end.

(** [Object.keys(o).sort()], carried out on the properties. *)
Definition sort_props (l : props) : props := fold_right insert_sorted [] l.

(** Modelled from the spec: functions/_sortKeys.js is not among the
    sources.  The spec describes canonicalization as a deterministic,
    recursive key-sorted serialization of any structured value (nesting
    of maps and ordered sequences): the keys of every mapping are
    sorted, at every depth, and a fresh object is filled in that
    order. *)
Fixpoint _sortKeys (v : value) : value :=
  match v with
  | VObj k ps =>
      VObj k (Js.assign1 []
                (sort_props
                   ((fix go (l : props) : props :=
                       match l with
                       | [] => []
                       | kv :: l' => (kv.1, _sortKeys kv.2) :: go l'
                       end) ps)))
  | _ => v
  end.

(** Modelled from the spec: the canonical bytes of a value and its
    digest identity, [digest(canonical(v))]. *)
Definition canonical (v : value) : option string :=
  Json.stringify_pretty (_sortKeys v).

Definition kind_eqb (a b : kind) : bool :=
  match a, b with
  | Plain, Plain | Array, Array => true
  | _, _ => false
  end.

(** Structural (deep) equality of data: the same own keys, whatever
    their order, with deep-equal values. *)
Fixpoint deep_eqb (a b : value) : bool :=
  match a, b with
  | VUndef, VUndef | VNull, VNull => true
  | VBool x, VBool y => Bool.eqb x y
  | VNum x, VNum y => Z.eqb x y
  | VStr x, VStr y => String.eqb x y
  | VObj k ps, VObj k' qs =>
      kind_eqb k k' && Nat.eqb (length ps) (length qs) &&
      (fix go (l : props) : bool :=
         match l with
         | [] => true
         | kv :: l' =>
             match Props.assoc kv.1 qs with
             | Some w => deep_eqb kv.2 w
             | None => false
             end && go l'
         end) ps
  | _, _ => false
  end.

(** No object lists a key twice, at any depth. *)
Fixpoint wfb (v : value) : bool :=
  match v with
  | VObj _ ps =>
      bool_decide (NoDup (map fst ps)) &&
      (fix go (l : props) : bool :=
         match l with
         | [] => true
         | kv :: l' => wfb kv.2 && go l'
         end) ps
  | _ => true
  end.

(** The values under the keys, each in canonical form. *)
Definition sorted_values (ps : props) : props :=
  map (λ kv, (kv.1, _sortKeys kv.2)) ps.

(** [a] has the canonical form of every well-formed value deep-equal
    to it. *)
Definition canonical_as (a : value) : Prop :=
  ∀ b, wfb a = true → wfb b = true → deep_eqb a b = true →
       _sortKeys a = _sortKeys b.

End Canonical.

(** The order [sort_props] establishes. *)
Definition key_le (x y : string * value) : Prop := String.leb x.1 y.1 = true.

(** ** Stand-ins for the absent collaborators

    Concrete functions of the right shape, used to run the operations on
    examples: a digest is replaced by the hexadecimal spelling of its
    input, an entity by the value it is built from. *)

Module Toy.

Definition digest (s : string) : string := Json.to_hex s.

Definition Entity : Type := value.
Definition new_Entity (v : value) : Entity :=
  match v with VUndef => VObj Plain [] | _ => v end.
Definition Entity_id (e : Entity) : string :=
  Json.to_hex (default "undefined" (Json.stringify e)).
Definition Entity_data (e : Entity) : value := e.

(** [_sortKeys] as the spec describes it. *)
Definition _sortKeys : value → value := Canonical._sortKeys.

(** A store after a [set], a [_POST] and a [commit]. *)
Definition used : Store.t :=
  (@Store.commit Entity new_Entity Entity_id Entity_data
     (Store._POST "/c" (VNum 1)
        (@Store.set digest _sortKeys Entity new_Entity Entity_id Entity_data
           "/a" (VStr "x") Store.fresh).1).1).1.

End Toy.

(** ** Predicates used in the statements *)

Fixpoint string_forall (p : ascii → bool) (s : string) : bool :=
  match s with
  | EmptyString => true
  | String c s' => p c && string_forall p s'
  end.

Definition is_hex (c : ascii) : bool :=
  let n := N_of_ascii c in
  (((48 <=? n) && (n <=? 57)) || ((97 <=? n) && (n <=? 102)))%N.

(** Lower-case hexadecimal text, the form of a digest. *)
Definition hexstr (s : string) : bool := string_forall is_hex s.

(** [typeof v === 'string']. *)
Definition typeof_string (v : value) : bool :=
  match v with VStr _ => true | _ => false end.


(** What [_GET] makes of the outcome of [get] below verbosity 5. *)
Definition quiet (r : result value) : result value :=
  match r with
  | Ok v => Ok v
  | Throw (OutsideModel w) => Throw (OutsideModel w)
  | Throw _ => Ok VNull
  end.

(** Everything a store holds but ['@method'] and the events it has
    emitted is the same in [st'] as in [st]. *)
Definition untouched (st st' : Store.t) : Prop :=
  Store.log st' = Store.log st ∧
  Store.signature st' = Store.signature st ∧
  Store.verbosity st' = Store.verbosity st ∧
  Store.entity_data st' = Store.entity_data st ∧
  Store.keys st' = Store.keys st ∧
  Store.actors st' = Store.actors st ∧
  Store.documents st' = Store.documents st ∧
  Store.metadata st' = Store.metadata st ∧
  Store.indices st' = Store.indices st ∧
  Store.content st' = Store.content st.

(** A store that holds what the constructor gave it: an empty content
    tree, an empty ['@data'], and no key, actor, document, metadata or
    index record. *)
Definition pristine (st : Store.t) : Prop :=
  untouched (Store.new (Store.verbosity st)) st.

(** ** More of Store (types/store.js) *)

(** What the loop of [populate] asks of the engine. *)
Module Coerce.

(** [element[i]] for a number [i]. *)
Definition at_index (element : value) (i : N) : value :=
  match element with
  | VObj _ ps => default VUndef (Props.assoc (pretty i) ps)
  | VStr s =>
      match String.get (N.to_nat i) s with
      | Some c => VStr (String c EmptyString)
      | None => VUndef
      end
  | _ => VUndef
  end.

(** How often [for (let i = 0; i < len; i++)] runs.  A [len] that is a
    string or an object is converted by rules the model leaves out. *)
Definition iterations (len : value) : result N :=
  match len with
  | VNum n => Ok (Z.to_N n)
  | VBool true => Ok 1%N
  | VBool false | VNull | VUndef => Ok 0%N
  | _ => Throw (OutsideModel "length")
  end.

(** [`${v}`]; the conversion of an object is left out. *)
Definition template (v : value) : result string :=
  match v with
  | VUndef => Ok "undefined"
  | VNull => Ok "null"
  | VBool b => Ok (if b then "true" else "false")
  | VNum n => Ok (pretty n)
  | VStr s => Ok s
  | VObj _ _ => Throw (OutsideModel "string conversion of an object")
  end.

End Coerce.

Module StoreMethods.
Import Store.
Local Open Scope store_scope.

(** [_getPathForKey(key)]. *)
Definition _getPathForKey (key : string) : M string :=
  let path := Pointer.escape key in
  sha256 "this" (VStr path).

Fixpoint populate_from (element : value) (n : nat) (i : N) (map : props)
    : M props :=
  match n with
  | O => ret map
  | S n' =>
      name <- lift (Coerce.template (Coerce.at_index element i)) ;;
      entry <- Store._GET ("/entities/" ++ name) ;;
      populate_from element n' (i + 1)%N (Props.put (pretty i) entry map)
  end.

Definition populate (element : value) : M value :=
  len <- lift (Js.prop element "length") ;;
  n <- lift (Coerce.iterations len) ;;
  map <- populate_from element (N.to_nat n) 0%N [] ;;
  ret (VObj Array map).

End StoreMethods.

(** * Facts about the building blocks *)

Section PropsFacts.
Context {A : Type}.
Implicit Types (k : string) (v : A) (ps : list (string * A)).

Lemma has_false_assoc k ps : Props.has k ps = false → Props.assoc k ps = None.
Proof. unfold Props.has. destruct (Props.assoc k ps); [discriminate|reflexivity]. Qed.

Lemma has_true_assoc k ps :
  Props.has k ps = true → ∃ v, Props.assoc k ps = Some v.
Proof. unfold Props.has. destruct (Props.assoc k ps); [eauto|discriminate]. Qed.

Lemma assoc_replace_eq k v ps :
  Props.has k ps = true → Props.assoc k (Props.replace k v ps) = Some v.
Proof.
  unfold Props.has.
  induction ps as [|[k' v'] ps IH]; simpl; [discriminate|].
  destruct (String.eqb k k') eqn:E; simpl.
  - now rewrite String.eqb_refl.
  - now rewrite E.
Qed.

Lemma assoc_replace_ne k k' v ps :
  k ≠ k' → Props.assoc k' (Props.replace k v ps) = Props.assoc k' ps.
Proof.
  intros Hne.
  induction ps as [|[k0 v0] ps IH]; simpl; [reflexivity|].
  destruct (String.eqb_spec k k0) as [->|]; simpl.
  - destruct (String.eqb_spec k' k0); [congruence|reflexivity].
  - now rewrite IH.
Qed.

Lemma assoc_insert_new_eq k v ps :
  Props.assoc k ps = None → Props.assoc k (Props.insert_new k v ps) = Some v.
Proof.
  induction ps as [|[k' v'] ps IH]; simpl.
  - now rewrite String.eqb_refl.
  - destruct (String.eqb k k') eqn:E; [discriminate|]. intros Hn.
    destruct (Props.before k k'); simpl.
    + now rewrite String.eqb_refl.
    + rewrite E. now apply IH.
Qed.

Lemma assoc_insert_new_ne k k' v ps :
  k ≠ k' → Props.assoc k' (Props.insert_new k v ps) = Props.assoc k' ps.
Proof.
  intros Hne.
  induction ps as [|[k0 v0] ps IH]; simpl.
  - destruct (String.eqb_spec k' k); [congruence|reflexivity].
  - destruct (Props.before k k0); simpl.
    + destruct (String.eqb_spec k' k); [congruence|reflexivity].
    + now rewrite IH.
Qed.

(** Reading a property back after [obj[k] = v]. *)
Lemma assoc_put_eq k v ps : Props.assoc k (Props.put k v ps) = Some v.
Proof.
  unfold Props.put. destruct (Props.has k ps) eqn:E.
  - now apply assoc_replace_eq.
  - apply assoc_insert_new_eq. now apply has_false_assoc.
Qed.

(** The other properties are untouched. *)
Lemma assoc_put_ne k k' v ps :
  k ≠ k' → Props.assoc k' (Props.put k v ps) = Props.assoc k' ps.
Proof.
  intros Hne. unfold Props.put. destruct (Props.has k ps).
  - now apply assoc_replace_ne.
  - now apply assoc_insert_new_ne.
Qed.

Lemma replace_same k v ps :
  Props.assoc k ps = Some v → Props.replace k v ps = ps.
Proof.
  induction ps as [|[k' v'] ps IH]; [reflexivity|].
  cbn [Props.assoc Props.replace].
  destruct (String.eqb_spec k k') as [->|Hne].
  - now intros [= ->].
  - intros H. now rewrite IH.
Qed.

(** Assigning a property the value it has changes nothing. *)
Lemma put_same k v ps :
  Props.assoc k ps = Some v → Props.put k v ps = ps.
Proof.
  intros H. unfold Props.put, Props.has. rewrite H. now apply replace_same.
Qed.

End PropsFacts.

Section HexFacts.

Lemma hex_char_hex (n : N) : (n < 16)%N → is_hex (Json.hex_char n) = true.
Proof.
  intros H. 
  assert (n = 0 ∨ n = 1 ∨ n = 2 ∨ n = 3 ∨ n = 4 ∨ n = 5 ∨ n = 6 ∨ n = 7 ∨
          n = 8 ∨ n = 9 ∨ n = 10 ∨ n = 11 ∨ n = 12 ∨ n = 13 ∨ n = 14 ∨ n = 15)%N
    as Hn by lia.
  repeat (destruct Hn as [->|Hn]; [reflexivity|]). now subst.
Qed.

Lemma string_forall_app (p : ascii → bool) (a b : string) :
  string_forall p (a ++ b) = string_forall p a && string_forall p b.
Proof.
  induction a as [|c a IH]; [reflexivity|].
  change (String c a ++ b) with (String c (a ++ b)).
  cbn [string_forall]. now rewrite IH, andb_assoc.
Qed.

Lemma to_hex_hexstr (s : string) : hexstr (Json.to_hex s) = true.
Proof.
  induction s as [|c s IH]; [reflexivity|].
  unfold hexstr in *.
  cbn [Json.to_hex]. unfold Json.hex_byte. cbv zeta.
  rewrite string_forall_app. cbn [string_forall].
  assert (N_of_ascii c < 256)%N by apply N_ascii_bounded.
  rewrite !hex_char_hex, IH; [reflexivity| |].
  - apply N.mod_lt. discriminate.
  - apply N.Div0.div_lt_upper_bound. lia.
Qed.

End HexFacts.

Section OrderFacts.

Lemma leb_iff (a b : string) :
  String.leb a b = true ↔ a = b ∨ String_as_OT.lt a b.
Proof.
  unfold String.leb.
  destruct (String.compare a b) eqn:E.
  - apply String_as_OT.cmp_eq in E. intuition.
  - apply String_as_OT.cmp_lt in E. intuition.
  - split; [discriminate|]. intros [->|H].
    + pose proof (proj2 (String_as_OT.cmp_eq b b) eq_refl) as H.
      unfold String_as_OT.cmp in H. congruence.
    + apply String_as_OT.cmp_lt in H. unfold String_as_OT.cmp in H. congruence.
Qed.

Lemma leb_trans (a b c : string) :
  String.leb a b = true → String.leb b c = true → String.leb a c = true.
Proof.
  rewrite !leb_iff. intros [->|H1] [->|H2]; auto.
  right. eapply String_as_OT.lt_trans; eassumption.
Qed.

Lemma leb_false_flip (a b : string) :
  String.leb a b = false → String.leb b a = true.
Proof.
  intros H. destruct (String.leb_total a b) as [H'|H']; [congruence|exact H'].
Qed.

End OrderFacts.

Section CanonicalFacts.
Import Canonical.

Lemma assoc_In (l : props) (k : string) (v : value) :
  Props.assoc k l = Some v → In (k, v) l.
Proof.
  induction l as [|[k' v'] l IH]; simpl; [discriminate|].
  destruct (String.eqb_spec k k') as [->|].
  - intros [= ->]. now left.
  - intros H. right. now apply IH.
Qed.

Lemma assoc_None (l : props) (k : string) :
  Props.assoc k l = None ↔ ¬ In k (map fst l).
Proof.
  induction l as [|[k' v'] l IH]; simpl; [tauto|].
  destruct (String.eqb_spec k k') as [->|Hne].
  - split; [discriminate|]. intros H. exfalso. apply H. now left.
  - rewrite IH. split.
    + intros H [->|H']; [now apply Hne|now apply H].
    + intros H H'. apply H. now right.
Qed.

Lemma In_assoc (l : props) (k : string) (v : value) :
  List.NoDup (map fst l) → In (k, v) l → Props.assoc k l = Some v.
Proof.
  induction l as [|[k' v'] l IH]; simpl; [tauto|].
  intros Hnd. apply List.NoDup_cons_iff in Hnd as [Hnin Hnd].
  intros [[= -> ->]|Hin].
  - now rewrite String.eqb_refl.
  - destruct (String.eqb_spec k k') as [->|]; [|now apply IH].
    exfalso. apply Hnin. apply in_map_iff. now exists (k', v).
Qed.

Lemma insert_sorted_perm (kv : string * value) (l : props) :
  Permutation (insert_sorted kv l) (kv :: l).
Proof.
  induction l as [|kv' l IH]; simpl; [reflexivity|].
  destruct (String.leb kv.1 kv'.1); [reflexivity|].
  rewrite IH. apply perm_swap.
Qed.

Lemma sort_props_perm (l : props) : Permutation (sort_props l) l.
Proof.
  induction l as [|kv l IH]; simpl; [reflexivity|].
  rewrite insert_sorted_perm. now constructor.
Qed.

Lemma insert_sorted_sorted (kv : string * value) (l : props) :
  StronglySorted key_le l → StronglySorted key_le (insert_sorted kv l).
Proof.
  induction l as [|kv' l IH]; simpl; intros Hs.
  - constructor; constructor.
  - destruct (String.leb kv.1 kv'.1) eqn:E.
    + constructor; [exact Hs|]. constructor; [exact E|].
      apply StronglySorted_inv in Hs as [_ Hall].
      eapply List.Forall_impl; [|exact Hall].
      intros x Hx. unfold key_le in *. eapply leb_trans; eassumption.
    + apply StronglySorted_inv in Hs as [Hs Hall].
      constructor; [now apply IH|].
      assert (Hp := insert_sorted_perm kv l).
      apply List.Forall_forall. intros x Hx.
      eapply Permutation_in in Hx; [|exact Hp].
      destruct Hx as [<-|Hx].
      * now apply leb_false_flip.
      * eapply List.Forall_forall in Hall; eassumption.
Qed.

Lemma sort_props_sorted (l : props) : StronglySorted key_le (sort_props l).
Proof.
  induction l as [|kv l IH]; simpl; [constructor|].
  now apply insert_sorted_sorted.
Qed.

(** Two sorted property lists without repeated keys that answer every
    lookup alike are the same list. *)
Lemma sorted_ext (l1 : props) :
  ∀ l2,
    StronglySorted key_le l1 → StronglySorted key_le l2 →
    List.NoDup (map fst l1) → List.NoDup (map fst l2) →
    (∀ k, Props.assoc k l1 = Props.assoc k l2) →
    l1 = l2.
Proof.
  induction l1 as [|[k1 v1] l1 IH]; intros [|[k2 v2] l2] S1 S2 N1 N2 Hext.
  - reflexivity.
  - specialize (Hext k2). simpl in Hext. rewrite String.eqb_refl in Hext.
    discriminate.
  - specialize (Hext k1). simpl in Hext. rewrite String.eqb_refl in Hext.
    discriminate.
  - apply StronglySorted_inv in S1 as [S1 A1].
    apply StronglySorted_inv in S2 as [S2 A2].
    simpl in N1, N2.
    apply List.NoDup_cons_iff in N1 as [Hn1 N1].
    apply List.NoDup_cons_iff in N2 as [Hn2 N2].
    assert (Hk : k1 = k2).
    { destruct (String.eqb_spec k1 k2) as [|Hne]; [assumption|]. exfalso.
      pose proof (Hext k1) as H1. pose proof (Hext k2) as H2.
      simpl in H1, H2. rewrite String.eqb_refl in H1, H2.
      destruct (String.eqb_spec k1 k2); [contradiction|].
      destruct (String.eqb_spec k2 k1); [congruence|].
      symmetry in H1. apply assoc_In in H1. apply assoc_In in H2.
      eapply List.Forall_forall in A2; [|exact H1].
      eapply List.Forall_forall in A1; [|exact H2].
      unfold key_le in A1, A2. simpl in A1, A2.
      apply Hne. now apply String.leb_antisym. }
    subst k2.
    assert (Hv : v1 = v2).
    { specialize (Hext k1). simpl in Hext.
      rewrite String.eqb_refl in Hext. congruence. }
    subst v2. f_equal. apply IH; try assumption.
    intros k. specialize (Hext k). simpl in Hext.
    destruct (String.eqb_spec k k1) as [Heq|Hne]; [|exact Hext].
    subst k. apply assoc_None in Hn1, Hn2. congruence.
Qed.

Lemma assoc_perm (l1 l2 : props) (k : string) :
  List.NoDup (map fst l1) → Permutation l1 l2 →
  Props.assoc k l1 = Props.assoc k l2.
Proof.
  intros Hnd Hp.
  assert (Hnd2 : List.NoDup (map fst l2)).
  { eapply Permutation_NoDup; [|exact Hnd]. now apply Permutation_map. }
  destruct (Props.assoc k l1) as [v|] eqn:E1.
  - symmetry. apply In_assoc; [assumption|].
    eapply Permutation_in; [exact Hp|]. now apply assoc_In.
  - destruct (Props.assoc k l2) as [w|] eqn:E2; [|reflexivity].
    apply assoc_In in E2. apply Permutation_sym in Hp.
    eapply Permutation_in in E2; [|exact Hp].
    apply In_assoc in E2; [congruence|assumption].
Qed.

(** The sorted form is decided by the lookups alone. *)
Lemma sort_props_ext (l1 l2 : props) :
  List.NoDup (map fst l1) → List.NoDup (map fst l2) →
  (∀ k, Props.assoc k l1 = Props.assoc k l2) →
  sort_props l1 = sort_props l2.
Proof.
  intros N1 N2 Hext.
  apply sorted_ext; try apply sort_props_sorted.
  - eapply Permutation_NoDup; [|exact N1].
    apply Permutation_map, Permutation_sym, sort_props_perm.
  - eapply Permutation_NoDup; [|exact N2].
    apply Permutation_map, Permutation_sym, sort_props_perm.
  - intros k.
    rewrite (assoc_perm (sort_props l1) l1), (assoc_perm (sort_props l2) l2);
      try apply sort_props_perm; [apply Hext| |].
    + eapply Permutation_NoDup; [|exact N2].
      apply Permutation_map, Permutation_sym, sort_props_perm.
    + eapply Permutation_NoDup; [|exact N1].
      apply Permutation_map, Permutation_sym, sort_props_perm.
Qed.

End CanonicalFacts.

Section AssignFacts.

Lemma keys_replace {A} (k : string) (v : A) (l : list (string * A)) :
  map fst (Props.replace k v l) = map fst l.
Proof.
  induction l as [|[k' v'] l IH]; simpl; [reflexivity|].
  destruct (String.eqb_spec k k') as [->|]; simpl; [reflexivity|].
  now rewrite IH.
Qed.

Lemma insert_new_perm {A} (k : string) (v : A) (l : list (string * A)) :
  Permutation (Props.insert_new k v l) ((k, v) :: l).
Proof.
  induction l as [|[k' v'] l IH]; simpl; [reflexivity|].
  destruct (Props.before k k'); [reflexivity|].
  rewrite IH. apply perm_swap.
Qed.

Lemma put_NoDup (k : string) (v : value) (l : props) :
  List.NoDup (map fst l) → List.NoDup (map fst (Props.put k v l)).
Proof.
  intros Hnd. unfold Props.put. destruct (Props.has k l) eqn:E.
  - now rewrite keys_replace.
  - eapply Permutation_NoDup.
    + apply Permutation_map, Permutation_sym, insert_new_perm.
    + simpl. constructor; [|exact Hnd].
      apply assoc_None. now apply has_false_assoc.
Qed.

Lemma assign1_NoDup (src : props) :
  ∀ tgt, List.NoDup (map fst tgt) → List.NoDup (map fst (Js.assign1 tgt src)).
Proof.
  unfold Js.assign1.
  induction src as [|[k v] src IH]; intros tgt Hnd; simpl; [exact Hnd|].
  apply IH. now apply put_NoDup.
Qed.

(** [Object.assign]: a key of the source wins, the others keep the
    target's value. *)
Lemma assoc_assign1 (src : props) :
  ∀ tgt key,
    List.NoDup (map fst src) →
    Props.assoc key (Js.assign1 tgt src)
    = match Props.assoc key src with
      | Some v => Some v
      | None => Props.assoc key tgt
      end.
Proof.
  unfold Js.assign1.
  induction src as [|[k v] src IH]; intros tgt key Hnd; simpl; [reflexivity|].
  simpl in Hnd. apply List.NoDup_cons_iff in Hnd as [Hnin Hnd].
  rewrite IH by assumption.
  destruct (String.eqb_spec key k) as [->|Hne].
  - apply assoc_None in Hnin. now rewrite Hnin, assoc_put_eq.
  - destruct (Props.assoc key src); [reflexivity|].
    apply assoc_put_ne. congruence.
Qed.

End AssignFacts.

Section SortKeysFacts.
Import Canonical.

Lemma sortKeys_obj (k : kind) (ps : props) :
  _sortKeys (VObj k ps)
  = VObj k (Js.assign1 [] (sort_props (sorted_values ps))).
Proof. reflexivity. Qed.

Lemma wfb_obj (k : kind) (ps : props) :
  wfb (VObj k ps)
  = bool_decide (NoDup (map fst ps)) && forallb (λ kv, wfb kv.2) ps.
Proof. reflexivity. Qed.

Lemma deep_eqb_obj (k k' : kind) (ps qs : props) :
  deep_eqb (VObj k ps) (VObj k' qs)
  = kind_eqb k k' && Nat.eqb (length ps) (length qs) &&
    forallb (λ kv, match Props.assoc kv.1 qs with
                   | Some w => deep_eqb kv.2 w
                   | None => false
                   end) ps.
Proof. reflexivity. Qed.

Lemma keys_sorted_values (ps : props) :
  map fst (sorted_values ps) = map fst ps.
Proof. unfold sorted_values. rewrite map_map. reflexivity. Qed.

Lemma assoc_sorted_values (ps : props) (key : string) :
  Props.assoc key (sorted_values ps)
  = option_map _sortKeys (Props.assoc key ps).
Proof.
  induction ps as [|[k v] ps IH]; simpl; [reflexivity|].
  destruct (String.eqb key k); [reflexivity|exact IH].
Qed.

Lemma wfb_NoDup (k : kind) (ps : props) :
  wfb (VObj k ps) = true → List.NoDup (map fst ps).
Proof.
  rewrite wfb_obj. intros H. apply andb_prop in H as [H _].
  apply bool_decide_eq_true in H. now apply NoDup_ListNoDup.
Qed.

Lemma wfb_child (k : kind) (ps : props) (key : string) (v : value) :
  wfb (VObj k ps) = true → In (key, v) ps → wfb v = true.
Proof.
  rewrite wfb_obj. intros H Hin. apply andb_prop in H as [_ H].
  eapply forallb_forall in H; [|exact Hin]. exact H.
Qed.

(** Objects with as many keys, each key of the first found in the second
    with the same canonical value, answer every lookup alike up to
    canonical form. *)
Lemma lookup_canonical (ps qs : props) :
  List.NoDup (map fst ps) → List.NoDup (map fst qs) →
  length ps = length qs →
  (∀ key v, In (key, v) ps →
     ∃ w, Props.assoc key qs = Some w ∧ _sortKeys v = _sortKeys w) →
  ∀ key, option_map _sortKeys (Props.assoc key ps)
         = option_map _sortKeys (Props.assoc key qs).
Proof.
  intros N1 N2 Hlen Hall key.
  destruct (Props.assoc key ps) as [v|] eqn:E.
  - apply assoc_In in E. destruct (Hall key v E) as (w & -> & Hw).
    simpl. now rewrite Hw.
  - destruct (Props.assoc key qs) as [w|] eqn:E2; [|reflexivity]. exfalso.
    apply assoc_None in E. apply E.
    assert (Hincl : incl (map fst qs) (map fst ps)).
    { apply NoDup_length_incl; [assumption| |].
      - rewrite !length_map. lia.
      - intros k Hk. apply in_map_iff in Hk as ([k' v] & <- & Hin).
        destruct (Hall k' v Hin) as (w' & Hw' & _).
        apply assoc_In in Hw'. apply in_map_iff. now exists (k', w'). }
    apply Hincl. apply assoc_In in E2. apply in_map_iff. now exists (key, w).
Qed.

Lemma deep_eqb_children (k k' : kind) (ps qs : props) :
  wfb (VObj k ps) = true → wfb (VObj k' qs) = true →
  deep_eqb (VObj k ps) (VObj k' qs) = true →
  Forall (λ kv, canonical_as kv.2) ps →
  k = k' ∧
  ∀ key, option_map _sortKeys (Props.assoc key ps)
         = option_map _sortKeys (Props.assoc key qs).
Proof.
  intros W1 W2 He IH.
  rewrite deep_eqb_obj in He.
  apply andb_prop in He as [He Hall]. apply andb_prop in He as [Hk Hlen].
  split; [destruct k, k'; (reflexivity || discriminate)|].
  apply Nat.eqb_eq in Hlen.
  apply lookup_canonical; try (eapply wfb_NoDup; eassumption); [assumption|].
  intros key v Hin.
  eapply forallb_forall in Hall; [|exact Hin]. simpl in Hall.
  destruct (Props.assoc key qs) as [w|] eqn:E; [|discriminate].
  exists w. split; [reflexivity|].
  pose proof (proj2 (list_elem_of_In _ _) Hin) as Hin'.
  eapply Forall_forall in IH; [|exact Hin']. simpl in IH.
  apply IH; [eapply wfb_child; [exact W1|exact Hin]| |exact Hall].
  eapply wfb_child; [exact W2|]. apply assoc_In. exact E.
Qed.

(** The canonical form of deep-equal values is the same value. *)
Lemma sortKeys_deep_eq (a : value) : canonical_as a.
Proof.
  induction a as [| |x|x|x|k ps IH] using value_ind_props;
    intros c Wa Wb He; destruct c as [| |y|y|y|k' qs]; try discriminate He;
    try reflexivity.
  - simpl in He. apply Bool.eqb_prop in He. now subst.
  - simpl in He. apply Z.eqb_eq in He. now subst.
  - simpl in He. apply String.eqb_eq in He. now subst.
  - destruct (deep_eqb_children k k' ps qs Wa Wb He IH) as [<- Hl].
    rewrite !sortKeys_obj. do 2 f_equal.
    apply sort_props_ext.
    + rewrite keys_sorted_values. eapply wfb_NoDup; eassumption.
    + rewrite keys_sorted_values. eapply wfb_NoDup; eassumption.
    + intros key. rewrite !assoc_sorted_values. apply Hl.
Qed.

End SortKeysFacts.

Section ActorIdentity.
Import Canonical.
Variable Hash256_digest : string → string.

Lemma actor_state_obj (k : kind) (ps : props) :
  Actor.state (Actor.new (VObj k ps)) = VObj Plain (Js.assign1 [] ps).
Proof. reflexivity. Qed.

Lemma sortKeys_assign (k k' : kind) (ps qs : props) :
  wfb (VObj k ps) = true → wfb (VObj k' qs) = true →
  deep_eqb (VObj k ps) (VObj k' qs) = true →
  _sortKeys (VObj Plain (Js.assign1 [] ps))
  = _sortKeys (VObj Plain (Js.assign1 [] qs)).
Proof.
  intros W1 W2 He.
  destruct (deep_eqb_children k k' ps qs W1 W2 He) as [_ Hl].
  { apply Forall_forall. intros kv _. apply sortKeys_deep_eq. }
  pose proof (wfb_NoDup _ _ W1) as N1. pose proof (wfb_NoDup _ _ W2) as N2.
  rewrite !sortKeys_obj. do 2 f_equal.
  apply sort_props_ext.
  - rewrite keys_sorted_values. apply assign1_NoDup. constructor.
  - rewrite keys_sorted_values. apply assign1_NoDup. constructor.
  - intros key. rewrite !assoc_sorted_values, !assoc_assign1 by assumption.
    specialize (Hl key). simpl.
    destruct (Props.assoc key ps), (Props.assoc key qs); exact Hl.
Qed.

Lemma actor_toObject_canonical (v1 v2 : value) :
  wfb v1 = true → wfb v2 = true → deep_eqb v1 v2 = true →
  Actor.toObject _sortKeys (Actor.new v1)
  = Actor.toObject _sortKeys (Actor.new v2).
Proof.
  intros W1 W2 He. unfold Actor.toObject.
  destruct v1 as [| |x|x|x|k ps], v2 as [| |y|y|y|k' qs];
    try discriminate He; try reflexivity.
  - simpl in He. apply String.eqb_eq in He. now subst.
  - rewrite !actor_state_obj. eapply sortKeys_assign; eassumption.
Qed.

(** C2.  With canonicalization as the spec describes it, deep-equal
    values have the same canonical bytes, and two actors built from
    deep-equal values serialize to the same text and have the same
    preimage and id, whatever the digest function. *)
Theorem actor_id_canonical (v1 v2 : value) :
  wfb v1 = true → wfb v2 = true → deep_eqb v1 v2 = true →
  canonical v1 = canonical v2 ∧
  Actor.serialize _sortKeys (Actor.new v1)
  = Actor.serialize _sortKeys (Actor.new v2) ∧
  Actor.preimage Hash256_digest _sortKeys (Actor.new v1)
  = Actor.preimage Hash256_digest _sortKeys (Actor.new v2) ∧
  Actor.id Hash256_digest _sortKeys (Actor.new v1)
  = Actor.id Hash256_digest _sortKeys (Actor.new v2).
Proof.
  intros W1 W2 He.
  pose proof (actor_toObject_canonical v1 v2 W1 W2 He) as Ho.
  pose proof (sortKeys_deep_eq v1 v2 W1 W2 He) as Hc.
  unfold canonical, Actor.serialize, Actor.id, Actor.preimage.
  rewrite Ho, Hc. repeat split; reflexivity.
Qed.

End ActorIdentity.

(** ** The engine's property order *)

Section OrderFacts2.















End OrderFacts2.

(** ** Hexadecimal text and what it decodes to *)

Section BufferFacts.

Lemma from_hex_byte (c : ascii) (rest : string) :
  Json.from_hex (Json.hex_byte c ++ rest) = String c (Json.from_hex rest).
Proof. destruct c as [[] [] [] [] [] [] [] []]; reflexivity. Qed.

Lemma from_hex_to_hex (s : string) : Json.from_hex (Json.to_hex s) = s.
Proof.
  induction s as [|c s IH]; [reflexivity|].
  cbn [Json.to_hex]. now rewrite from_hex_byte, IH.
Qed.

Lemma length_to_hex (s : string) :
  String.length (Json.to_hex s) = (2 * String.length s)%nat.
Proof.
  induction s as [|c s IH]; [reflexivity|].
  cbn [Json.to_hex]. unfold Json.hex_byte. cbv zeta.
  change (String ?a (String ?b "") ++ ?t) with (String a (String b t)).
  cbn [String.length]. rewrite IH. lia.
Qed.


Lemma hex_pair (c d : ascii) :
  is_hex c = true → is_hex d = true →
  ∃ x y, Json.hex_value c = Some x ∧ Json.hex_value d = Some y ∧
         Json.hex_byte (ascii_of_N (16 * x + y)) = String c (String d "").
Proof.
  intros Hc Hd.
  destruct c as [[] [] [] [] [] [] [] []]; try discriminate Hc;
    destruct d as [[] [] [] [] [] [] [] []]; try discriminate Hd;
    eexists; eexists; repeat split.
Qed.

(** Lower-case hexadecimal text of even length is decoded in full, and
    spelling the bytes again gives the text back. *)
Lemma to_hex_from_hex (p : string) :
  (hexstr p = true → Nat.even (String.length p) = true →
   Json.to_hex (Json.from_hex p) = p ∧
   (2 * String.length (Json.from_hex p))%nat = String.length p) ∧
  (∀ c, hexstr (String c p) = true →
        Nat.even (String.length (String c p)) = true →
        Json.to_hex (Json.from_hex (String c p)) = String c p ∧
        (2 * String.length (Json.from_hex (String c p)))%nat
        = String.length (String c p)).
Proof.
  induction p as [|d p [IH1 IH2]].
  - split; [split; reflexivity|]. intros c _ He. discriminate He.
  - split; [apply IH2|]. intros c Hh He.
    unfold hexstr in Hh. cbn [string_forall] in Hh.
    apply andb_prop in Hh as [Hc Hh]. apply andb_prop in Hh as [Hd Hh].
    destruct (hex_pair c d Hc Hd) as (x & y & Hx & Hy & Hb).
    cbn [Json.from_hex]. rewrite Hx, Hy. cbn [Json.to_hex]. rewrite Hb.
    change (String.length (String c (String d p)))
      with (S (S (String.length p))) in *.
    change (Nat.even (S (S (String.length p))))
      with (Nat.even (String.length p)) in He.
    destruct (IH1 Hh He) as [E1 E2]. rewrite E1.
    split; [reflexivity|]. cbn [String.length]. lia.
Qed.

End BufferFacts.

(** ** What the Actor constructor keeps of its argument *)

Section ActorLife.
Variable Hash256_digest : string → string.
Variable _sortKeys : value → value.








Lemma readObject_not_string (x : value) :
  typeof_string x = false →
  Actor._readObject x = VObj Plain (Js.assign1 [] (Js.own_enumerable x)).
Proof. destruct x; try discriminate; reflexivity. Qed.

Lemma captureRejections_own (x : value) :
  typeof_string x = false →
  ActorMethods.captureRejections (ActorMethods.Data x)
  = default VUndef (Props.assoc "captureRejections" (Js.own_enumerable x)).
Proof. destruct x; try discriminate; reflexivity. Qed.


Lemma new_buffer (bytes : string) :
  ∃ c, ActorMethods.new (ActorMethods.Buffer bytes) = Ok c ∧
       Actor.state_content c
       = VObj Plain [("type", VStr "Buffer");
                     ("content", VStr (Json.to_hex bytes));
                     ("encoding", VStr "hex")].
Proof. eexists. split; reflexivity. Qed.

(** X1.  The constructor keeps the own enumerable properties of a data
    argument and nothing else: two data values that are not strings and
    have the same own properties (any two of [undefined], [null], the
    booleans and the numbers; an array and the object keyed by its
    indices) are rejected by [EventEmitter] with the same error, or
    give equal actors, with one id.  A [Buffer] is not read by its own
    properties: its state spells its bytes in hexadecimal. *)
Theorem actor_forgets_shape (x y : value) (bytes : string) :
  typeof_string x = false → typeof_string y = false →
  Js.own_enumerable x = Js.own_enumerable y →
  ActorMethods.new (ActorMethods.Data x)
  = ActorMethods.new (ActorMethods.Data y) ∧
  (∀ a b, ActorMethods.new (ActorMethods.Data x) = Ok a →
          ActorMethods.new (ActorMethods.Data y) = Ok b →
          a = b ∧
          Actor.id Hash256_digest _sortKeys a
          = Actor.id Hash256_digest _sortKeys b) ∧
  ∃ c, ActorMethods.new (ActorMethods.Buffer bytes) = Ok c ∧
       Actor.state_content c
       = VObj Plain [("type", VStr "Buffer");
                     ("content", VStr (Json.to_hex bytes));
                     ("encoding", VStr "hex")].
Proof.
  intros Hx Hy He.
  assert (Hn : ActorMethods.new (ActorMethods.Data x)
               = ActorMethods.new (ActorMethods.Data y)).
  { unfold ActorMethods.new, ActorMethods.EventEmitter,
      ActorMethods._readObject.
    rewrite (captureRejections_own x Hx), (captureRejections_own y Hy).
    rewrite (readObject_not_string x Hx), (readObject_not_string y Hy), He.
    reflexivity. }
  split; [exact Hn|]. split; [|apply new_buffer].
  intros a b Ha Hb. rewrite Hn, Hb in Ha. injection Ha as ->.
  split; reflexivity.
Qed.




(** X5.  [toString('hex')] spells the bytes of [serialize()], which are
    what [toBuffer()] holds, in lower-case hexadecimal, two digits a
    byte, and decoding it gives [serialize()] back; without a format,
    or with ['json'], [toString] is [serialize()]. *)
Theorem toString_hex_decodes (this : Actor.t) (h : string) :
  ActorMethods.toString _sortKeys (VStr "hex") this = Ok (Some h) →
  (∃ s, Actor.serialize _sortKeys this = Some s ∧
        ActorMethods.toBuffer _sortKeys this = Ok s ∧
        Json.from_hex h = s ∧ hexstr h = true ∧
        String.length h = (2 * String.length s)%nat) ∧
  ActorMethods.toString _sortKeys VUndef this
  = Ok (Actor.serialize _sortKeys this) ∧
  ActorMethods.toString _sortKeys (VStr "json") this
  = Ok (Actor.serialize _sortKeys this).
Proof.
  unfold ActorMethods.toString, ActorMethods.toBuffer. cbn [Js.is_string].
  intros H. split; [|split; reflexivity].
  change (("hex" =? "hex")%string) with true in H. cbv iota in H.
  destruct (Actor.serialize _sortKeys this) as [s|]; [|discriminate].
  cbn in H. injection H as <-. exists s.
  repeat split; [apply from_hex_to_hex|apply to_hex_hexstr|apply length_to_hex].
Qed.

(** X18.  [id] never throws.  Where the digest is lower-case
    hexadecimal text of even length, [Buffer.from(preimage, 'hex')]
    decodes all of the preimage, two digits a byte, so the id is the
    digest of bytes that spell the preimage. *)
Theorem id_digests_preimage_bytes (a : Actor.t) :
  (∀ b, hexstr (Hash256_digest b) = true) →
  (∀ b, Nat.even (String.length (Hash256_digest b)) = true) →
  ∃ p bytes,
    Actor.preimage Hash256_digest _sortKeys a = Ok p ∧
    Actor.id Hash256_digest _sortKeys a = Ok (Hash256_digest bytes) ∧
    Json.to_hex bytes = p ∧
    (2 * String.length bytes)%nat = String.length p.
Proof.
  intros Hh He. unfold Actor.id.
  assert (∃ json, Actor.preimage Hash256_digest _sortKeys a
                  = Ok (Hash256_digest json)) as [json Hp]
    by (unfold Actor.preimage; simpl; eauto).
  rewrite Hp. cbn [rbind].
  exists (Hash256_digest json), (Json.from_hex (Hash256_digest json)).
  split; [reflexivity|]. split; [reflexivity|].
  apply to_hex_from_hex; [apply Hh|apply He].
Qed.


End ActorLife.

(** * Properties *)

Section Properties.

Variable Hash256_digest : string → string.
Variable _sortKeys : value → value.
Variable Entity : Type.
Variable new_Entity : value → Entity.
Variable Entity_id : Entity → string.
Variable Entity_data : Entity → value.

Local Abbreviation get := Store.get.
Local Abbreviation _GET := Store._GET.
Local Abbreviation _PUSH := Store._PUSH.
Local Abbreviation _POST := Store._POST.
Local Abbreviation on_put := Store.on_put.
Local Abbreviation populate := StoreMethods.populate.
Local Abbreviation populate_from := StoreMethods.populate_from.
Local Abbreviation commit :=
  (@Store.commit Entity new_Entity Entity_id Entity_data).
Local Abbreviation set :=
  (@Store.set Hash256_digest _sortKeys Entity new_Entity Entity_id
     Entity_data).
Local Abbreviation _PUT :=
  (@Store._PUT Hash256_digest _sortKeys Entity new_Entity Entity_id
     Entity_data).
Local Abbreviation _DELETE :=
  (@Store._DELETE Hash256_digest _sortKeys Entity new_Entity Entity_id
     Entity_data).
Local Abbreviation _PATCH :=
  (@Store._PATCH Hash256_digest _sortKeys Entity new_Entity Entity_id
     Entity_data).
Local Abbreviation _PATCH_merge :=
  (@Store._PATCH_merge Hash256_digest _sortKeys Entity new_Entity Entity_id
     Entity_data).
Local Abbreviation _REGISTER := (Store._REGISTER Hash256_digest _sortKeys).
Local Abbreviation trust := (Store.trust Hash256_digest _sortKeys).
Local Abbreviation reachable :=
  (@Store.reachable Hash256_digest _sortKeys Entity new_Entity Entity_id
     Entity_data).

(** The error of a call of [this.sha256]. *)
Local Abbreviation no_sha256 := (TypeError "this.sha256 is not a function").

(** *** How each operation runs *)

Lemma getRouteInfo_run (path : string) (st : Store.t) :
  Store.getRouteInfo path st = (st, Throw no_sha256).
Proof. reflexivity. Qed.

Lemma get_run (key : string) (st : Store.t) :
  get key st = (st, Throw no_sha256).
Proof. reflexivity. Qed.

Lemma set_run (key : string) (v : value) (st : Store.t) :
  set key v st = (st, Throw no_sha256).
Proof. reflexivity. Qed.

Lemma _GET_run (key : string) (st : Store.t) :
  _GET key st
  = (st, if 5 <=? Store.verbosity st
         then Throw (TypeError "this.log is not a function")
         else Ok VNull).
Proof.
  unfold Store._GET, Store.bind, Store.this, Store.catch, Store.invoke,
    Store.throw, Store.ret.
  destruct (5 <=? Store.verbosity st); [reflexivity|].
  rewrite get_run. reflexivity.
Qed.

Lemma _PUSH_run (key : string) (data : value) (st : Store.t) :
  _PUSH key data st
  = (st, Throw (if 5 <=? Store.verbosity st
                then TypeError "this.log is not a function"
                else ReferenceError "State")).
Proof.
  unfold Store._PUSH, Store.bind. rewrite _GET_run.
  destruct (5 <=? Store.verbosity st); reflexivity.
Qed.

Lemma _POST_run (key : string) (v : value) (st : Store.t) :
  _POST key v st = (Store.set_method (VStr "_POST") st, Throw no_sha256).
Proof. reflexivity. Qed.

Lemma constructor_name_error (v : value) (e : error) :
  Js.constructor_name v = Throw e → ∃ msg, e = TypeError msg.
Proof.
  destruct v as [| | | | |k ps]; cbn [Js.constructor_name];
    try discriminate; try (intros [= <-]; eauto).
  destruct (Props.assoc "constructor" ps) as [c|]; [|discriminate].
  destruct c as [| | | | |[] cs]; cbn [Js.prop];
    try discriminate; intros [= <-]; eauto.
Qed.

Lemma on_put_run (name key : string) (v : value) (st : Store.t) :
  ∃ msg, on_put name key v st = (st, Throw (TypeError msg)) ∧
         (Store.verbosity st < 5 → msg = "store.sha256 is not a function").
Proof.
  unfold Store.on_put, Store.bind, Store.this, Store.lift, Store.ret.
  destruct (Z.leb_spec 5 (Store.verbosity st)) as [Hv|Hv].
  - destruct (Js.constructor_name v) as [n|e] eqn:E.
    + eexists. split; [reflexivity|]. lia.
    + destruct (constructor_name_error v e E) as [msg ->].
      exists msg. split; [reflexivity|]. lia.
  - eexists. split; reflexivity.
Qed.

Lemma actor_id_defined {T} `{Actor.ActorLike T} (this : T) :
  ∃ aid, Store.actor_id Hash256_digest _sortKeys this = Ok aid.
Proof. unfold Store.actor_id, Actor.id, Actor.preimage. simpl. eauto. Qed.

Lemma _REGISTER_run (obj : ActorMethods.argument) (st : Store.t) :
  _REGISTER obj st
  = (st, Throw (match ActorMethods.EventEmitter obj with
                | Throw e => e
                | Ok _ =>
                    if 5 <=? Store.verbosity st
                    then TypeError "this.log is not a function"
                    else ReferenceError "store"
                end)).
Proof.
  unfold Store._REGISTER, ActorMethods.new.
  destruct (ActorMethods.EventEmitter obj) as [[]|e]; [|reflexivity].
  cbn [rbind].
  unfold Store.bind at 1, Store.lift at 1.
  unfold Store.bind at 1, Store.lift at 1.
  match goal with
  | |- context [Store.actor_id _ _ ?a] =>
      destruct (actor_id_defined a) as [aid ->]
  end.
  unfold Store.bind. rewrite _GET_run.
  destruct (5 <=? Store.verbosity st); reflexivity.
Qed.

Lemma prop_state (k : kind) (ps : props) :
  Js.prop (VObj k ps) "state" = Ok (default VUndef (Props.assoc "state" ps)).
Proof. destruct k; reflexivity. Qed.

Lemma commit_run (st : Store.t) (k : kind) (ps : props) :
  Store.content st = VObj k ps →
  let e := new_Entity (default VUndef (Props.assoc "state" ps)) in
  commit st
  = ((Store.emit "commit" [VStr (Entity_id e); Entity_data e] st).1, Ok e).
Proof.
  intros Hc. unfold Store.commit, Store.bind, Store.this, Store.lift,
    Store.ret, Actor.state.
  cbn [Actor.content_of Store.actor_like]. rewrite Hc, prop_state.
  reflexivity.
Qed.

(** *** What the operations leave alone *)

#[local] Instance untouched_refl : Reflexive untouched.
Proof. intros st. repeat split. Qed.

#[local] Instance untouched_trans : Transitive untouched.
Proof.
  intros a b c (A1 & A2 & A3 & A4 & A5 & A6 & A7 & A8 & A9 & A10)
    (B1 & B2 & B3 & B4 & B5 & B6 & B7 & B8 & B9 & B10).
  repeat split; congruence.
Qed.

Lemma untouched_set (key : string) (v : value) (st : Store.t) :
  untouched st (set key v st).1.
Proof. rewrite set_run. reflexivity. Qed.

Lemma untouched_commit (st : Store.t) : untouched st (commit st).1.
Proof.
  unfold Store.commit, Store.bind, Store.this, Store.lift, Store.ret.
  destruct (Js.prop (Actor.state st) "state"); repeat split.
Qed.


Lemma untouched_DELETE (key : string) (st : Store.t) :
  untouched st (_DELETE key st).1.
Proof. reflexivity. Qed.

Lemma untouched_PATCH (key : string) (patch : value) (st : Store.t) :
  untouched st (_PATCH key patch st).1.
Proof. reflexivity. Qed.

Lemma untouched_POST (key : string) (v : value) (st : Store.t) :
  untouched st (_POST key v st).1.
Proof. rewrite _POST_run. repeat split. Qed.

Lemma untouched_PUSH (key : string) (data : value) (st : Store.t) :
  untouched st (_PUSH key data st).1.
Proof. rewrite _PUSH_run. reflexivity. Qed.


Lemma untouched_on_put (name key : string) (v : value) (st : Store.t) :
  untouched st (on_put name key v st).1.
Proof. destruct (on_put_run name key v st) as (msg & -> & _). reflexivity. Qed.



Lemma trust_handler (st0 : Store.t) :
  ∃ sid, Store.actor_id Hash256_digest _sortKeys st0 = Ok sid ∧
         trust st0 = Ok (on_put ("/sources/" ++ sid)).
Proof.
  destruct (actor_id_defined st0) as [sid Hs]. exists sid.
  split; [exact Hs|]. unfold Store.trust. now rewrite Hs.
Qed.

(** Every state a store goes through holds what the constructor gave
    it. *)
Lemma reachable_pristine (st : Store.t) : reachable st → pristine st.
Proof.
  assert (Hstep : ∀ a b, pristine a → untouched a b → pristine b).
  { intros a b Ha Hab. unfold pristine, untouched in *.
    destruct Hab as (B1 & B2 & B3 & B4 & B5 & B6 & B7 & B8 & B9 & B10).
    destruct Ha as (A1 & A2 & A3 & A4 & A5 & A6 & A7 & A8 & A9 & A10).
    rewrite B3. cbn [Store.new Store.log Store.signature Store.verbosity
      Store.entity_data Store.keys Store.actors Store.documents
      Store.metadata Store.indices Store.content] in *.
    repeat split; congruence. }
  induction 1 as [verbosity|st key v _ IH|st _ IH|st key _ IH
                  |st key patch _ IH|st key v _ IH|st key data _ IH
                  |st0 st handler key v _ _ Ht _ IH].
  - unfold pristine. reflexivity.
  - eapply Hstep; [exact IH|apply untouched_set].
  - eapply Hstep; [exact IH|apply untouched_commit].
  - eapply Hstep; [exact IH|apply untouched_DELETE].
  - eapply Hstep; [exact IH|apply untouched_PATCH].
  - eapply Hstep; [exact IH|apply untouched_POST].
  - eapply Hstep; [exact IH|apply untouched_PUSH].
  - destruct (trust_handler st0) as (sid & _ & Hh).
    rewrite Hh in Ht. injection Ht as <-.
    eapply Hstep; [exact IH|apply untouched_on_put].
Qed.

(** *** The stated properties *)

(** C1 (refuted on the code).  [set] rejects on every store, path and
    value, and writes nothing: its first statement awaits
    [getRouteInfo], which calls [this.sha256], a member nothing
    defines.  The [get] that follows rejects the same way.  So no value
    is ever written or read back. *)
Theorem set_throws (st : Store.t) (key : string) (v : value) :
  set key v st = (st, Throw (TypeError "this.sha256 is not a function")) ∧
  get key st = (st, Throw (TypeError "this.sha256 is not a function")).
Proof. split; reflexivity. Qed.

(** C3 (refuted on the code).  [get] never answers, whether or not a
    metadata record exists for the route: it rejects with the
    [TypeError] of the call of [this.sha256] in [getRouteInfo], before
    the content tree and the metadata are looked at.  The store is left
    as it was. *)
Theorem get_throws (st : Store.t) (key : string) :
  get key st = (st, Throw (TypeError "this.sha256 is not a function")).
Proof. reflexivity. Qed.

(** C9 (refuted on the code).  [_DELETE] rejects with a [TypeError] on
    every store and path, because the [set] it awaits does; nothing is
    written. *)
Theorem delete_throws (st : Store.t) (key : string) :
  ∃ msg, _DELETE key st = (st, Throw (TypeError msg)) ∧
         msg = "this.sha256 is not a function".
Proof. eexists. split; reflexivity. Qed.

(** C4 (refuted on the code).  [_PATCH] rejects with a [TypeError] on
    every store, path and patch: its first statement calls [this.log],
    which holds the array the [Actor] constructor assigned.  Nothing is
    read, merged or written. *)
Theorem patch_throws (st : Store.t) (key : string) (patch : value) :
  _PATCH key patch st = (st, Throw (TypeError "this.log is not a function")).
Proof. reflexivity. Qed.

(** C6 (refuted on the code).  [_PUSH] rejects on every store, path and
    payload, and leaves the store as it was: below verbosity 5 with the
    [ReferenceError] of [new State(data)], which stands before every
    write; from verbosity 5 on with the [TypeError] of the [_GET] it
    awaits first. *)
Theorem push_throws (st : Store.t) (key : string) (data : value) :
  ∃ e, _PUSH key data st = (st, Throw e) ∧
       e = (if 5 <=? Store.verbosity st
            then TypeError "this.log is not a function"
            else ReferenceError "State").
Proof. eexists. split; [apply _PUSH_run|reflexivity]. Qed.

(** C5 (refuted on the code).  [_POST] rejects with a [TypeError] on
    every store, path and value: after assigning ['@method'] it calls
    [this.sha256].  It returns neither an identity nor [false], and
    ['@method'] is the one thing it has changed: the key registry,
    ['@data'] and the content tree are as they were. *)
Theorem post_throws (st : Store.t) (key : string) (v : value) :
  ∃ st' msg,
    _POST key v st = (st', Throw (TypeError msg)) ∧
    msg = "this.sha256 is not a function" ∧
    Store.method st' = VStr "_POST" ∧
    untouched st st'.
Proof.
  do 2 eexists. split; [apply _POST_run|].
  split; [reflexivity|]. split; [reflexivity|]. repeat split.
Qed.


(** C8 (refuted on the code).  [trust] hands the source a listener
    that throws a [TypeError] on every [put], whatever the store holds
    by then, and leaves the store as it was: nothing is written to
    ['@data'] and no event is emitted.  Below verbosity 5 the error is
    that of [store.sha256], which the listener calls before the first
    of its writes; from verbosity 5 on, a value without a constructor
    fails one statement earlier. *)
Theorem trust_put_throws (st0 st : Store.t) (key : string) (v : value) :
  ∃ handler,
    trust st0 = Ok handler ∧
    ∃ msg,
      handler key v st = (st, Throw (TypeError msg)) ∧
      (Store.verbosity st < 5 → msg = "store.sha256 is not a function").
Proof.
  destruct (trust_handler st0) as (sid & _ & Hh).
  eexists. split; [exact Hh|]. apply on_put_run.
Qed.

(** C10.  [sign] throws on every actor, and so on every store, which
    inherits it; the receiver is left as it was, so its [signature]
    keeps its value, which is [null] after construction. *)
Theorem sign_throws :
  (∀ (T : Type) (H : Actor.ActorLike T) (this : T),
     ∃ msg, Actor.sign this = (this, Throw (JsError msg))) ∧
  (∀ st : Store.t,
     ∃ msg, Store.sign st = (st, Throw (JsError msg)) ∧
            Store.signature (fst (Store.sign st)) = Store.signature st) ∧
  (∀ input : value, Actor.signature (Actor.new input) = VNull) ∧
  (∀ verbosity : Z, Store.signature (Store.new verbosity) = VNull).
Proof.
  repeat split; intros; try reflexivity; eexists; try split; reflexivity.
Qed.

(** *** More of the store *)

(** X6.  [_GET] never changes the store.  Below verbosity 5 it returns
    what [get] returns and [null] where [get] throws, which is on every
    key; from verbosity 5 on it rejects on every key, because its first
    statement calls [this.log], which holds an array. *)
Theorem _GET_outcomes (key : string) (st : Store.t) :
  (5 ≤ Store.verbosity st →
   _GET key st = (st, Throw (TypeError "this.log is not a function"))) ∧
  (Store.verbosity st < 5 →
   ∃ r, get key st = (st, r) ∧ _GET key st = (st, quiet r)) ∧
  (Store.verbosity st < 5 → _GET key st = (st, Ok VNull)).
Proof.
  rewrite _GET_run. split; [|split]; intros Hv.
  - apply Z.leb_le in Hv. now rewrite Hv.
  - apply Z.leb_gt in Hv. rewrite Hv. eexists. split; reflexivity.
  - apply Z.leb_gt in Hv. now rewrite Hv.
Qed.

(** X9.  What [encodeValue] returns is the JSON text of the value in
    lower-case hexadecimal, two digits a byte; decoding it gives the
    JSON text back. *)
Theorem encodeValue_decodes (v : value) (h : string) :
  Store.encodeValue v = Ok h →
  ∃ s, Json.stringify v = Some s ∧ Json.from_hex h = s ∧
       hexstr h = true ∧ String.length h = (2 * String.length s)%nat.
Proof.
  unfold Store.encodeValue.
  destruct (Js.constructor_name v); [|discriminate]. cbn [rbind].
  destruct (Json.stringify v) as [s|]; [|discriminate]. cbn.
  intros [= <-]. exists s.
  repeat split; [apply from_hex_to_hex|apply to_hex_hexstr|apply length_to_hex].
Qed.

(** *** [populate] *)

Lemma length_insert_new {A} (k : string) (v : A) (l : list (string * A)) :
  length (Props.insert_new k v l) = S (length l).
Proof.
  induction l as [|[k' v'] l IH]; [reflexivity|].
  cbn [Props.insert_new]. destruct (Props.before k k'); cbn [length]; lia.
Qed.

(** The loop of [populate], from index [i] on, over a map that holds
    indices below [i] only. *)
Lemma populate_from_spec (element : value) (st : Store.t) (n : nat) :
  Store.verbosity st < 5 →
  ∀ (i : N) (map : props),
    (∀ j, (i ≤ j < i + N.of_nat n)%N →
       ∃ s, Coerce.at_index element j = VStr s) →
    (∀ k, is_Some (Props.assoc k map) → ∃ j, (j < i)%N ∧ k = pretty j) →
    ∃ map',
      populate_from element n i map st = (st, Ok map') ∧
      length map' = (length map + n)%nat ∧
      (∀ k v, Props.assoc k map = Some v → Props.assoc k map' = Some v) ∧
      (∀ j, (i ≤ j < i + N.of_nat n)%N →
         Props.assoc (pretty j) map' = Some VNull).
Proof.
  intros Hv. induction n as [|n IH]; intros i map Hel Hmap.
  - exists map. split; [reflexivity|]. split; [lia|]. split; [auto|].
    intros j Hj. lia.
  - destruct (Hel i ltac:(lia)) as (s & Hs).
    cbn [StoreMethods.populate_from].
    unfold Store.bind at 1, Store.lift at 1. rewrite Hs. cbn [Coerce.template].
    unfold Store.bind at 1. rewrite _GET_run.
    apply Z.leb_gt in Hv. rewrite Hv.
    assert (Hfresh : Props.assoc (pretty i) map = None).
    { destruct (Props.assoc (pretty i) map) as [x|] eqn:E; [|reflexivity].
      destruct (Hmap (pretty i) ltac:(rewrite E; eauto)) as (j & Hj & Hp).
      apply (inj pretty) in Hp. lia. }
    destruct (IH (i + 1)%N (Props.put (pretty i) VNull map)) as
      (map' & Hrun & Hlen & Hold & Hnew).
    { intros j Hj. apply Hel. lia. }
    { intros k [x Hx].
      destruct (String.eqb_spec (pretty i) k) as [<-|Hne].
      - exists i. split; [lia|reflexivity].
      - rewrite assoc_put_ne in Hx by assumption.
        destruct (Hmap k ltac:(eauto)) as (j & Hj & ->).
        exists j. split; [lia|reflexivity]. }
    exists map'. split; [exact Hrun|]. split; [|split].
    + rewrite Hlen. unfold Props.put, Props.has. rewrite Hfresh.
      rewrite length_insert_new. lia.
    + intros k v Hk. apply Hold.
      rewrite assoc_put_ne; [exact Hk|]. intros <-. congruence.
    + intros j Hj. destruct (N.eq_dec j i) as [->|Hne].
      * apply Hold. apply assoc_put_eq.
      * apply Hnew. lia.
Qed.

(** X14.  [populate] reads and never writes.  Below verbosity 5, for an
    array whose elements are digests (the ids entities are stored
    under), it returns an array with one own member per element:
    at each index what [get('/entities/' + id)] returns, or [null]
    where that read throws, which it does for every id. *)
Theorem populate_reads_each_entity (ps : props) (st : Store.t) :
  Store.verbosity st < 5 →
  (∀ j, (j < Props.array_length ps)%N →
     ∃ s, Coerce.at_index (VObj Array ps) j = VStr s ∧ hexstr s = true) →
  ∃ map,
    populate (VObj Array ps) st = (st, Ok (VObj Array map)) ∧
    length map = N.to_nat (Props.array_length ps) ∧
    (∀ j, (j < Props.array_length ps)%N →
      ∃ s, Coerce.at_index (VObj Array ps) j = VStr s ∧
           Props.assoc (pretty j) map
           = Some (match get ("/entities/" ++ s) st with
                   | (_, Ok w) => w
                   | _ => VNull
                   end)) ∧
    (∀ j, (j < Props.array_length ps)%N →
      Props.assoc (pretty j) map = Some VNull).
Proof.
  intros Hv Hel.
  destruct (populate_from_spec (VObj Array ps) st
              (N.to_nat (Props.array_length ps)) Hv 0%N [])
    as (map & Hrun & Hlen & _ & Hnew).
  { intros j Hj. destruct (Hel j ltac:(lia)) as (s & Hs & _). eauto. }
  { intros k [x Hx]. discriminate. }
  exists map. split; [|split; [|split]].
  - unfold StoreMethods.populate, Store.bind, Store.lift, Store.ret.
    cbn [Js.prop String.eqb Ascii.eqb Bool.eqb Coerce.iterations].
    rewrite N2Z.id, Hrun. reflexivity.
  - exact Hlen.
  - intros j Hj. destruct (Hel j Hj) as (s & Hs & _). exists s.
    split; [exact Hs|]. rewrite get_run. apply Hnew. lia.
  - intros j Hj. apply Hnew. lia.
Qed.

(** *** What holds in every state a store goes through *)

(** X15.  In every state a store goes through, [_POST] rejects with a
    [TypeError], and ['@data'] has no [addresses] member: nothing the
    store does gives it one. *)
Theorem reachable_post_rejects (st : Store.t) (key : string) (v : value) :
  reachable st →
  Js.prop (Store.entity_data st) "addresses" = Ok VUndef ∧
  ∃ st' msg, _POST key v st = (st', Throw (TypeError msg)).
Proof.
  intros Hr. apply reachable_pristine in Hr.
  destruct Hr as (_ & _ & _ & Hd & _). cbn [Store.new Store.entity_data] in Hd.
  rewrite Hd. split; [reflexivity|].
  do 2 eexists. apply _POST_run.
Qed.

(** X16.  In every state a store goes through, the content tree is an
    object, so [commit] returns: it builds its entity from the member
    [state] of the tree ([undefined] where there is none) and emits one
    event. *)
Theorem reachable_commit_returns (st : Store.t) :
  reachable st →
  ∃ k ps st',
    Store.content st = VObj k ps ∧
    commit st
    = (st', Ok (new_Entity (default VUndef (Props.assoc "state" ps)))) ∧
    length (Store.emitted st') = S (length (Store.emitted st)).
Proof.
  intros Hr. apply reachable_pristine in Hr.
  destruct Hr as (_ & _ & _ & _ & _ & _ & _ & _ & _ & Hc).
  cbn [Store.new Store.content] in Hc.
  exists Plain, [].
  eexists. split; [exact Hc|]. split; [apply (commit_run st Plain [] Hc)|].
  unfold Store.emit, Store.modify. cbn [fst Store.emitted].
  rewrite length_app. simpl. lia.
Qed.

(** X17.  No operation of the store writes a record.  In every state a
    store goes through, the content tree and ['@data'] are the empty
    objects the constructor made, and the key registry and the four
    flat records ([actors], [documents], [metadata], [indices]) are
    empty; so [metadata] and [indices] have the same keys, none, and
    [commit] builds its entity from [undefined]. *)
Theorem reachable_store_is_empty (st : Store.t) :
  reachable st →
  Store.content st = VObj Plain [] ∧
  Store.entity_data st = VObj Plain [] ∧
  Store.keys st = ∅ ∧
  Store.actors st = ∅ ∧
  Store.documents st = ∅ ∧
  Store.metadata st = ∅ ∧
  Store.indices st = ∅ ∧
  dom (Store.metadata st) = dom (Store.indices st) ∧
  (commit st).2 = Ok (new_Entity VUndef).
Proof.
  intros Hr. apply reachable_pristine in Hr.
  destruct Hr as (_ & _ & _ & H4 & H5 & H6 & H7 & H8 & H9 & H10).
  cbn [Store.new Store.entity_data Store.keys Store.actors Store.documents
       Store.metadata Store.indices Store.content] in *.
  rewrite (commit_run st Plain [] H10), H8, H9.
  repeat split; assumption.
Qed.

(** X19.  [_REGISTER] rejects on every store and argument and leaves
    the store as it was: with the [TypeError] of [EventEmitter] where
    the [Actor] constructor rejects the argument; otherwise, below
    verbosity 5, with the [ReferenceError] of the unbound name [store],
    and from verbosity 5 on with the [TypeError] of the [_GET] it
    awaits first. *)
Theorem _REGISTER_rejects (obj : ActorMethods.argument) (st : Store.t) :
  _REGISTER obj st
  = (st, Throw (match ActorMethods.EventEmitter obj with
                | Throw e => e
                | Ok _ =>
                    if 5 <=? Store.verbosity st
                    then TypeError "this.log is not a function"
                    else ReferenceError "store"
                end)) ∧
  (∀ bytes, ActorMethods.EventEmitter (ActorMethods.Buffer bytes) = Ok tt) ∧
  (∀ ps c, Props.assoc "captureRejections" ps = Some c →
     Js.truthy c = true → ActorMethods.is_boolean c = false →
     ∃ msg, ActorMethods.EventEmitter (ActorMethods.Data (VObj Plain ps))
            = Throw (TypeError msg)) ∧
  (∀ ps, Props.assoc "captureRejections" ps = None →
     ActorMethods.EventEmitter (ActorMethods.Data (VObj Plain ps)) = Ok tt).
Proof.
  split; [apply _REGISTER_run|]. split; [reflexivity|]. split.
  - intros ps c Hc Ht Hb. unfold ActorMethods.EventEmitter,
      ActorMethods.captureRejections.
    rewrite Hc. cbn [default from_option id]. rewrite Ht, Hb. eauto.
  - intros ps Hc. unfold ActorMethods.EventEmitter,
      ActorMethods.captureRejections.
    rewrite Hc. reflexivity.
Qed.



End Properties.

(** * Worked inputs *)

Local Abbreviation toy_commit :=
  (@Store.commit Toy.Entity Toy.new_Entity Toy.Entity_id Toy.Entity_data).
Local Abbreviation toy_set :=
  (@Store.set Toy.digest Toy._sortKeys Toy.Entity Toy.new_Entity
     Toy.Entity_id Toy.Entity_data).
Local Abbreviation toy_DELETE :=
  (@Store._DELETE Toy.digest Toy._sortKeys Toy.Entity Toy.new_Entity
     Toy.Entity_id Toy.Entity_data).
Local Abbreviation toy_PATCH :=
  (@Store._PATCH Toy.digest Toy._sortKeys Toy.Entity Toy.new_Entity
     Toy.Entity_id Toy.Entity_data).
Local Abbreviation toy_PATCH_merge :=
  (@Store._PATCH_merge Toy.digest Toy._sortKeys Toy.Entity Toy.new_Entity
     Toy.Entity_id Toy.Entity_data).
Local Abbreviation toy_trust := (Store.trust Toy.digest Toy._sortKeys).
Local Abbreviation toy_reachable :=
  (@Store.reachable Toy.digest Toy._sortKeys Toy.Entity Toy.new_Entity
     Toy.Entity_id Toy.Entity_data).

Ltac split_ands := repeat match goal with |- _ ∧ _ => split end.

Lemma toy_hex :
  (∀ b, hexstr (Toy.digest b) = true) ∧
  (∀ b, Nat.even (String.length (Toy.digest b)) = true).
Proof.
  split; intros x; [apply to_hex_hexstr|].
  unfold Toy.digest. rewrite length_to_hex. apply Nat.even_mul.
Qed.

Local Abbreviation used := Toy.used.

Lemma toy_reachable_used : toy_reachable used.
Proof.
  apply Store.reach_commit, Store.reach_post, Store.reach_set,
    Store.reach_new.
Qed.

Lemma actor_id_canonical_witness :
  (Canonical.wfb
     (VObj Plain [("a", VNum 1);
                  ("b", VObj Plain [("y", VNum 2); ("x", VNum 3)])]) = true ∧
   Canonical.wfb
     (VObj Plain [("b", VObj Plain [("x", VNum 3); ("y", VNum 2)]);
                  ("a", VNum 1)]) = true ∧
   Canonical.deep_eqb
     (VObj Plain [("a", VNum 1);
                  ("b", VObj Plain [("y", VNum 2); ("x", VNum 3)])])
     (VObj Plain [("b", VObj Plain [("x", VNum 3); ("y", VNum 2)]);
                  ("a", VNum 1)]) = true) ∧
  Actor.id Toy.digest Canonical._sortKeys
    (Actor.new (VObj Plain [("a", VNum 1);
                            ("b", VObj Plain [("y", VNum 2); ("x", VNum 3)])]))
  = Actor.id Toy.digest Canonical._sortKeys
      (Actor.new (VObj Plain [("b", VObj Plain [("x", VNum 3); ("y", VNum 2)]);
                              ("a", VNum 1)])).
Proof.
  split; [repeat split; vm_compute; reflexivity|].
  apply (actor_id_canonical Toy.digest); vm_compute; reflexivity.
Defined.



(** ** The scenarios of the spec, run on the model *)

(** Read-your-write: the [set] rejects, the store stays empty, and the
    [get] rejects. *)
Example set_then_get :
  toy_set "/a/b" (VObj Plain [("x", VNum 1)]) Store.fresh
  = (Store.fresh, Throw (TypeError "this.sha256 is not a function")) ∧
  Store.get "/a/b" Store.fresh
  = (Store.fresh, Throw (TypeError "this.sha256 is not a function")).
Proof. split; reflexivity. Qed.

(** A miss: [get] throws, the guarded [_GET] answers [null]. *)
Example get_miss :
  Store.get "/missing" Store.fresh
  = (Store.fresh, Throw (TypeError "this.sha256 is not a function")) ∧
  Store._GET "/missing" Store.fresh = (Store.fresh, Ok VNull).
Proof. split; reflexivity. Qed.

(** [set('/a', 'x')] rejects, and so does the [_DELETE('/a')] after it. *)
Example delete_after_set :
  toy_DELETE "/a" (toy_set "/a" (VStr "x") Store.fresh).1
  = (Store.fresh, Throw (TypeError "this.sha256 is not a function")).
Proof. reflexivity. Qed.

(** The patch scenario: [_PATCH] throws at once.  The statements after
    its first one, run on their own, read [null], since [get] rejects,
    and return a copy of the patch; the write they attempt rejects and
    its error is dropped. *)
Example patch_scenario :
  toy_PATCH "/a/b" (VObj Plain [("y", VNum 2)]) Store.fresh
  = (Store.fresh, Throw (TypeError "this.log is not a function")) ∧
  toy_PATCH_merge "/a/b" (VObj Plain [("x", VObj Plain [("z", VNum 3)])])
    (toy_PATCH_merge "/a/b" (VObj Plain [("y", VNum 2)]) Store.fresh).1
  = (Store.fresh, Ok (VObj Plain [("x", VObj Plain [("z", VNum 3)])])).
Proof. split; reflexivity. Qed.

(** Two pushes: both throw, and no blob can be read afterwards. *)
Example push_twice :
  Store._PUSH "/s" (VStr "v1") Store.fresh
  = (Store.fresh, Throw (ReferenceError "State")) ∧
  Store._PUSH "/s" (VStr "v2") Store.fresh
  = (Store.fresh, Throw (ReferenceError "State")) ∧
  Store._GET "/blobs/7631" Store.fresh = (Store.fresh, Ok VNull).
Proof. repeat split; reflexivity. Qed.

(** [post] on a newly built store: ['@method'] is set, no key is
    registered. *)
Example post_fresh :
  Store._POST "/c" (VNum 1) Store.fresh
  = (Store.set_method (VStr "_POST") Store.fresh,
     Throw (TypeError "this.sha256 is not a function")) ∧
  Store.keys (Store._POST "/c" (VNum 1) Store.fresh).1 = ∅.
Proof. split; reflexivity. Qed.

(** A [put] of ['v'] under ['k'] after [trust]: the listener throws and
    ['@data'] stays empty. *)
Example trust_then_put :
  ∃ handler,
    toy_trust Store.fresh = Ok handler ∧
    handler "k" (VStr "v") Store.fresh
    = (Store.fresh, Throw (TypeError "store.sha256 is not a function")).
Proof. eexists. split; reflexivity. Qed.

Example getDataInfo_cases :
  Store.getDataInfo (VStr "x") Store.fresh
  = (Store.fresh, Throw (TypeError "this.sha256 is not a function")) ∧
  (Store.getDataInfo (VNum 1) Store.fresh).2
  = Ok {| Store.info_hash := VNull; Store.info_size := VNull;
          Store.info_type := VStr "Unhandled" |} ∧
  StoreMethods._getPathForKey "k" Store.fresh
  = (Store.fresh, Throw (TypeError "this.sha256 is not a function")).
Proof. repeat split; reflexivity. Qed.

Example stringify_nested :
  Json.stringify_pretty
    (VObj Array [("0", VNum 1); ("1", VObj Array [("0", VNum 2); ("1", VNull)])])
  = Some "[
  1,
  [
    2,
    null
  ]
]".
Proof. vm_compute. reflexivity. Qed.

Example stringify_object :
  Json.stringify (VObj Plain [("a", VNum 1); ("u", VUndef); ("b", VStr "x")])
  = Some ("{" ++ Json.quote "a" ++ ":1," ++ Json.quote "b" ++ ":"
          ++ Json.quote "x" ++ "}").
Proof. vm_compute. reflexivity. Qed.

Example pointer_escape : Pointer.escape "/a~/b" = "~1a~0~1b".
Proof. reflexivity. Qed.

Example pointer_set_get :
  rbind (Pointer.set (VObj Plain []) "/a/b" (VNum 1))
        (λ t, Pointer.get t "/a/b") = Ok (VNum 1).
Proof. reflexivity. Qed.

Example pointer_append :
  Pointer.set (VObj Plain []) "/a/-" (VNum 1)
  = Ok (VObj Plain [("a", VObj Array [("0", VNum 1)])]).
Proof. vm_compute. reflexivity. Qed.

(** ** More worked inputs *)

Lemma actor_forgets_shape_witness :
  (typeof_string (VObj Array [("0", VNum 97)]) = false ∧
   typeof_string (VObj Plain [("0", VNum 97)]) = false ∧
   Js.own_enumerable (VObj Array [("0", VNum 97)])
   = Js.own_enumerable (VObj Plain [("0", VNum 97)])) ∧
  ActorMethods.new (ActorMethods.Data (VObj Array [("0", VNum 97)]))
  = ActorMethods.new (ActorMethods.Data (VObj Plain [("0", VNum 97)])) ∧
  (∀ a b,
     ActorMethods.new (ActorMethods.Data (VObj Array [("0", VNum 97)])) = Ok a →
     ActorMethods.new (ActorMethods.Data (VObj Plain [("0", VNum 97)])) = Ok b →
     a = b ∧
     Actor.id Toy.digest Toy._sortKeys a = Actor.id Toy.digest Toy._sortKeys b) ∧
  ∃ c, ActorMethods.new (ActorMethods.Buffer "a") = Ok c ∧
       Actor.state_content c
       = VObj Plain [("type", VStr "Buffer"); ("content", VStr "61");
                     ("encoding", VStr "hex")].
Proof.
  split; [split_ands; reflexivity|].
  exact (actor_forgets_shape Toy.digest Toy._sortKeys
           (VObj Array [("0", VNum 97)]) (VObj Plain [("0", VNum 97)]) "a"
           eq_refl eq_refl eq_refl).
Defined.

(** The array of the byte of ['a'] and the [Buffer] of ['a'] give
    different actors. *)
Example buffer_is_not_its_array :
  (∃ a, ActorMethods.new (ActorMethods.Data (VObj Array [("0", VNum 97)]))
        = Ok a ∧
        Actor.state_content a = VObj Plain [("0", VNum 97)]) ∧
  (∃ c, ActorMethods.new (ActorMethods.Buffer "a") = Ok c ∧
        Actor.state_content c
        = VObj Plain [("type", VStr "Buffer"); ("content", VStr "61");
                      ("encoding", VStr "hex")]).
Proof. split; eexists; split; reflexivity. Qed.



Lemma toString_hex_decodes_witness :
  ActorMethods.toString Toy._sortKeys (VStr "hex") (Actor.new (VObj Plain []))
  = Ok (Some "7b7d") ∧
  ∃ s, Actor.serialize Toy._sortKeys (Actor.new (VObj Plain [])) = Some s ∧
       Json.from_hex "7b7d" = s.
Proof.
  split; [reflexivity|].
  destruct (toString_hex_decodes Toy._sortKeys (Actor.new (VObj Plain []))
              "7b7d" eq_refl) as [(s & H1 & _ & H2 & _) _].
  exists s. split; assumption.
Defined.

Lemma id_digests_preimage_bytes_witness :
  ((∀ b, hexstr (Toy.digest b) = true) ∧
   (∀ b, Nat.even (String.length (Toy.digest b)) = true)) ∧
  ∃ p bytes,
    Actor.preimage Toy.digest Toy._sortKeys (Actor.new (VNum 1)) = Ok p ∧
    Actor.id Toy.digest Toy._sortKeys (Actor.new (VNum 1))
    = Ok (Toy.digest bytes) ∧
    Json.to_hex bytes = p.
Proof.
  destruct toy_hex as (H3 & H4).
  split; [split; assumption|].
  destruct (id_digests_preimage_bytes Toy.digest Toy._sortKeys
              (Actor.new (VNum 1)) H3 H4) as (p & bytes & Hp & Hi & Hb & _).
  exists p, bytes. repeat split; assumption.
Defined.


(** An argument whose [captureRejections] is a number is rejected by
    the constructor. *)
Example new_rejects :
  ActorMethods.new
    (ActorMethods.Data (VObj Plain [("captureRejections", VNum 1)]))
  = Throw (TypeError
      "The options.captureRejections property must be of type boolean") ∧
  Store._REGISTER Toy.digest Toy._sortKeys
    (ActorMethods.Data (VObj Plain [("captureRejections", VNum 1)]))
    Store.fresh
  = (Store.fresh,
     Throw (TypeError
       "The options.captureRejections property must be of type boolean")) ∧
  Store._REGISTER Toy.digest Toy._sortKeys
    (ActorMethods.Data (VStr "v")) Store.fresh
  = (Store.fresh, Throw (ReferenceError "store")).
Proof. repeat split; reflexivity. Qed.

Lemma _GET_outcomes_witness :
  (5 ≤ Store.verbosity (Store.new 5) ∧ Store.verbosity Store.fresh < 5) ∧
  Store._GET "/a" (Store.new 5)
  = (Store.new 5, Throw (TypeError "this.log is not a function")) ∧
  Store._GET "/a" Store.fresh = (Store.fresh, Ok VNull).
Proof.
  split; [split; vm_compute; [discriminate|reflexivity]|].
  split.
  - apply (_GET_outcomes "/a" (Store.new 5)).
    vm_compute. discriminate.
  - apply (_GET_outcomes "/a" Store.fresh). reflexivity.
Defined.

Lemma encodeValue_decodes_witness :
  Store.encodeValue (VNum 1) = Ok "31" ∧
  ∃ s, Json.stringify (VNum 1) = Some s ∧ Json.from_hex "31" = s.
Proof.
  split; [vm_compute; reflexivity|].
  destruct (encodeValue_decodes (VNum 1) "31") as (s & H1 & H2 & _);
    [vm_compute; reflexivity|].
  exists s. split; assumption.
Defined.

Lemma populate_reads_each_entity_witness :
  (Store.verbosity Store.fresh < 5 ∧
   ∀ j, (j < Props.array_length [("0", VStr "ab")])%N →
     ∃ s, Coerce.at_index (VObj Array [("0", VStr "ab")]) j = VStr s ∧
          hexstr s = true) ∧
  ∃ map,
    StoreMethods.populate (VObj Array [("0", VStr "ab")]) Store.fresh
    = (Store.fresh, Ok (VObj Array map)) ∧
    length map = 1%nat ∧
    Props.assoc "0" map = Some VNull.
Proof.
  assert (He : ∀ j, (j < Props.array_length [("0", VStr "ab")])%N →
             ∃ s, Coerce.at_index (VObj Array [("0", VStr "ab")]) j = VStr s ∧
                  hexstr s = true).
  { intros j Hj. change (Props.array_length [("0", VStr "ab")]) with 1%N in Hj.
    assert (j = 0%N) as -> by lia. exists "ab". split; reflexivity. }
  split; [split; [reflexivity|exact He]|].
  destruct (populate_reads_each_entity [("0", VStr "ab")]
              Store.fresh eq_refl He) as (map & H1 & H2 & _ & H4).
  exists map. split; [exact H1|]. split; [exact H2|].
  apply (H4 0%N). reflexivity.
Defined.

Lemma reachable_post_rejects_witness :
  toy_reachable used ∧
  Js.prop (Store.entity_data used) "addresses" = Ok VUndef ∧
  ∃ st' msg, Store._POST "/c" (VNum 1) used = (st', Throw (TypeError msg)).
Proof.
  split; [apply toy_reachable_used|].
  exact (reachable_post_rejects Toy.digest Toy._sortKeys Toy.Entity
           Toy.new_Entity Toy.Entity_id Toy.Entity_data used "/c" (VNum 1)
           toy_reachable_used).
Defined.

Lemma reachable_commit_returns_witness :
  toy_reachable used ∧
  ∃ k ps st',
    Store.content used = VObj k ps ∧
    toy_commit used
    = (st', Ok (Toy.new_Entity (default VUndef (Props.assoc "state" ps)))) ∧
    length (Store.emitted st') = S (length (Store.emitted used)).
Proof.
  split; [apply toy_reachable_used|].
  exact (reachable_commit_returns Toy.digest Toy._sortKeys Toy.Entity
           Toy.new_Entity Toy.Entity_id Toy.Entity_data used
           toy_reachable_used).
Defined.

Lemma reachable_store_is_empty_witness :
  toy_reachable used ∧
  Store.content used = VObj Plain [] ∧
  Store.entity_data used = VObj Plain [] ∧
  Store.keys used = ∅ ∧
  Store.actors used = ∅ ∧
  Store.documents used = ∅ ∧
  Store.metadata used = ∅ ∧
  Store.indices used = ∅ ∧
  dom (Store.metadata used) = dom (Store.indices used) ∧
  (toy_commit used).2 = Ok (Toy.new_Entity VUndef).
Proof.
  split; [apply toy_reachable_used|].
  exact (reachable_store_is_empty Toy.digest Toy._sortKeys Toy.Entity
           Toy.new_Entity Toy.Entity_id Toy.Entity_data used
           toy_reachable_used).
Defined.

(** The store of these witnesses has been through a [set], a [_POST]
    and a [commit]: ['@method'] and one event are all that shows. *)
Example used_store :
  Store.method Toy.used = VStr "_POST" ∧
  Store.emitted Toy.used
  = [("commit", [VStr (Toy.Entity_id (Toy.new_Entity VUndef));
                 Toy.Entity_data (Toy.new_Entity VUndef)])].
Proof. split; reflexivity. Qed.
